(** * Adventurer Wiki: write gateway, presence tracker and view projection

    A shallow embedding of [adventurer-wiki/scripts/party-wiki.js].  One
    client of the wiki is a record of the host objects the script talks to
    ([game.user], [game.users], the two world settings, the socket, the
    notification area) together with the module-level [activeEditors] map.
    Every function of the script that the properties below are about is a
    function on that record; asynchronous host calls are run to completion
    in program order.

    The script file holds two revisions of the module.  They agree on every
    function modelled here except [PartyWikiApp._prepareContext]; both
    revisions of that method are given. *)

From stdpp Require Import gmap strings list fin_maps.
From Stdlib Require Import ZArith Ascii.

(** ** JavaScript string primitives used by the script

    Strings are sequences of 8-bit code units, read as the characters
    U+0000 to U+00FF; white space and case mapping are JavaScript's on that
    range.  A character above U+00FF in a message text of the script is kept
    as its UTF-8 bytes; no function below looks inside a message text. *)

Module Js.

(** White space of [trim] and of [\s] below U+0100: tab to carriage
    return, the space and the no-break space. *)
Definition is_space (c : ascii) : bool :=
  Ascii.is_space c || bool_decide (c = "160"%char).

(** Lower case of one character: [A] to [Z], and the upper-case letters
    U+00C0 to U+00DE without the multiplication sign U+00D7. *)
Definition lower (c : ascii) : ascii :=
  let n := nat_of_ascii c in
  if ((65 <=? n) && (n <=? 90)) ||
     ((192 <=? n) && (n <=? 222) && negb (n =? 215))
  then ascii_of_nat (n + 32) else c.

(** [String.prototype.toLowerCase] *)
Fixpoint toLowerCase (s : string) : string :=
  match s with
  | "" => ""
  | String c r => String (lower c) (toLowerCase r)
  end.

Fixpoint trimStart (s : string) : string :=
  match s with
  | "" => ""
  | String c r => if is_space c then trimStart r else s
  end.

(** [String.prototype.trim] *)
Definition trim (s : string) : string :=
  String.rev (trimStart (String.rev (trimStart s))).

(** A string is truthy when it is not empty. *)
Definition truthy (s : string) : bool :=
  match s with "" => false | _ => true end.

Fixpoint startsWith (p s : string) : bool :=
  match p, s with
  | "", _ => true
  | String _ _, "" => false
  | String a p', String b s' => bool_decide (a = b) && startsWith p' s'
  end.

(** [String.prototype.includes] *)
Fixpoint includes (s q : string) : bool :=
  startsWith q s ||
  match s with
  | "" => false
  | String _ r => includes r q
  end.

Fixpoint has_char (x : ascii) (s : string) : bool :=
  match s with
  | "" => false
  | String c r => bool_decide (c = x) || has_char x r
  end.

(** [s.replace(/<[^>]*>/g, " ")]: a tag opens at a ["<"] that has a
    [">"] somewhere after it and closes at the first such [">"].  The flag
    says whether the scan is inside a tag. *)
Fixpoint blank_tags (inside : bool) (s : string) : string :=
  match s with
  | "" => ""
  | String c r =>
      if inside then
        if bool_decide (c = ">"%char) then blank_tags false r
        else blank_tags true r
      else if bool_decide (c = "<"%char) && has_char ">" r then
        String " " (blank_tags true r)
      else String c (blank_tags false r)
  end.

Definition strip_tags (s : string) : string := blank_tags false s.

(** The longest prefix without ["]"], and what follows it: [[^\]]+]. *)
Fixpoint span_title (s : string) : string * string :=
  match s with
  | "" => ("", "")
  | String c r =>
      if bool_decide (c = "]"%char) then ("", s)
      else let '(t, rest) := span_title r in (String c t, rest)
  end.

(** A match of [/\[\[([^\]]+)\]\]/] at the head of [s]; the result is the
    captured group. *)
Definition link_at (s : string) : option string :=
  match s with
  | String "[" (String "[" r) =>
      match span_title r with
      | (String c t, String "]" (String "]" _)) => Some (String c t)
      | _ => None
      end
  | _ => None
  end.

(** [s.replace(/\[\[([^\]]+)\]\]/g, (_match, rawTitle) => f rawTitle)].
    [skip] counts the characters of the current match still to be
    consumed. *)
Fixpoint replace_links (f : string → string) (skip : nat) (s : string) : string :=
  match s with
  | "" => ""
  | String c r =>
      match skip with
      | S k => replace_links f k r
      | O =>
          match link_at s with
          | Some t => f t +:+ replace_links f (String.length t + 3) r
          | None => String c (replace_links f 0 r)
          end
      end
  end.

End Js.

(** ** Data model *)

Module Comment.
Record t := mk {
  id : string;
  authorName : string;
  userId : string;
  text : string;
  createdAt : Z;
}.
#[global] Instance eq_dec : EqDecision t.
Proof. solve_decision. Defined.
End Comment.

(** An entry as stored in the [wikiEntries] setting.  [gmNotes] is written
    only when a GM saves, and the script reads [comments] through
    [?? []]: the type lets both keys be missing from a stored object.
    Every object the script itself writes has the [comments] key
    ([comments_present] below). *)
Module Entry.
Record t := mk {
  id : string;
  title : string;
  category : string;
  content : string;
  hidden : bool;
  pendingDelete : bool;
  createdAt : Z;
  updatedAt : Z;
  createdBy : string;
  updatedBy : string;
  gmNotes : option string;
  comments : option (list Comment.t);
}.
#[global] Instance eq_dec : EqDecision t.
Proof. solve_decision. Defined.

(** [{ ...e, hidden: h }] *)
Definition with_hidden (h : bool) (e : t) : t :=
  mk (id e) (title e) (category e) (content e) h (pendingDelete e)
     (createdAt e) (updatedAt e) (createdBy e) (updatedBy e)
     (gmNotes e) (comments e).

(** [{ ...e, pendingDelete: p }] *)
Definition with_pendingDelete (p : bool) (e : t) : t :=
  mk (id e) (title e) (category e) (content e) (hidden e) p
     (createdAt e) (updatedAt e) (createdBy e) (updatedBy e)
     (gmNotes e) (comments e).

(** [e.comments = cs] *)
Definition with_comments (cs : list Comment.t) (e : t) : t :=
  mk (id e) (title e) (category e) (content e) (hidden e) (pendingDelete e)
     (createdAt e) (updatedAt e) (createdBy e) (updatedBy e)
     (gmNotes e) (Some cs).
End Entry.

Module Category.
Record t := mk {
  id : string;
  label : string;
  icon : string;
}.
#[global] Instance eq_dec : EqDecision t.
Proof. solve_decision. Defined.
End Category.

Module User.
Record t := mk {
  id : string;
  name : string;
  isGM : bool;
  active : bool;
}.
#[global] Instance eq_dec : EqDecision t.
Proof. solve_decision. Defined.
End User.

(** A value of the [activeEditors] map. *)
Record Session := mkSession {
  userName : string;
  userId : string;
}.

#[global] Instance Session_eq_dec : EqDecision Session.
Proof. solve_decision. Defined.

(** Payloads of the [module.adventurer-wiki] socket event. *)
Inductive Message :=
  | requestSave (entries : list Entry.t)
  | refresh
  | categoriesChanged
  | editingStart (entryId userName userId : string)
  | editingStop (entryId userId : string).

#[global] Instance Message_eq_dec : EqDecision Message.
Proof. solve_decision. Defined.

Inductive Notification :=
  | warn (msg : string)
  | info (msg : string).

Definition DEFAULT_CATEGORIES : list Category.t :=
  [ Category.mk "lore"      "Lore"          "fa-book-open";
    Category.mk "locations" "Locations"     "fa-map-location-dot";
    Category.mk "npcs"      "NPCs"          "fa-person";
    Category.mk "factions"  "Factions"      "fa-shield-halved";
    Category.mk "quests"    "Quests"        "fa-map-pin";
    Category.mk "items"     "Items"         "fa-gem";
    Category.mk "notes"     "Session Notes" "fa-scroll" ].

(** ** One client

    [wikiEntries] and [wikiCategories] are the values of the two world
    settings as this client reads them; [sent] is the log of
    [game.socket.emit] calls, oldest first; [refreshes] counts the calls of
    [refreshAllWikiApps]. *)
Record Client := mkClient {
  user : User.t;
  users : list User.t;
  wikiEntries : list Entry.t;
  wikiCategories : list Category.t;
  activeEditors : gmap string Session;
  sent : list Message;
  notifications : list Notification;
  refreshes : nat;
}.

Definition set_wikiEntries (es : list Entry.t) (c : Client) : Client :=
  mkClient (user c) (users c) es (wikiCategories c) (activeEditors c)
           (sent c) (notifications c) (refreshes c).

Definition set_wikiCategories (cs : list Category.t) (c : Client) : Client :=
  mkClient (user c) (users c) (wikiEntries c) cs (activeEditors c)
           (sent c) (notifications c) (refreshes c).

Definition set_activeEditors (m : gmap string Session) (c : Client) : Client :=
  mkClient (user c) (users c) (wikiEntries c) (wikiCategories c) m
           (sent c) (notifications c) (refreshes c).

(** [game.socket.emit(SOCKET_EVENT, m)] *)
Definition emit (m : Message) (c : Client) : Client :=
  mkClient (user c) (users c) (wikiEntries c) (wikiCategories c)
           (activeEditors c) (sent c ++ [m]) (notifications c) (refreshes c).

(** [ui.notifications.warn] and [ui.notifications.info] *)
Definition notify (n : Notification) (c : Client) : Client :=
  mkClient (user c) (users c) (wikiEntries c) (wikiCategories c)
           (activeEditors c) (sent c) (notifications c ++ [n]) (refreshes c).

Definition refreshAllWikiApps (c : Client) : Client :=
  mkClient (user c) (users c) (wikiEntries c) (wikiCategories c)
           (activeEditors c) (sent c) (notifications c) (S (refreshes c)).

(** ** Store accessors and the write gateway *)

(** The stored value is an immutable list here, so the deep clone is the
    value itself. *)
Definition getEntries (c : Client) : list Entry.t := wikiEntries c.

Definition getCategories (c : Client) : list Category.t :=
  match wikiCategories c with
  | [] => DEFAULT_CATEGORIES
  | stored => stored
  end.

(** [game.users.find(u => u.isGM && u.active)] *)
Definition activeGM (c : Client) : option User.t :=
  List.find (λ u, User.isGM u && User.active u) (users c).

Definition no_gm_warning : string :=
  "Adventurer Wiki: A GM must be connected to save. " +:+
  "Your work is still in the editor — please try again once a GM joins.".

Definition saveEntries (entries : list Entry.t) (c : Client) : bool * Client :=
  if User.isGM (user c) then
    (true, refreshAllWikiApps (emit refresh (set_wikiEntries entries c)))
  else
    match activeGM c with
    | None => (false, notify (warn no_gm_warning) c)
    | Some _ => (true, emit (requestSave entries) c)
    end.

(** ** Socket handler and connectivity hook *)

Definition onSocket (payload : Message) (c : Client) : Client :=
  match payload with
  | requestSave entries =>
      if User.isGM (user c) then
        refreshAllWikiApps (emit refresh (set_wikiEntries entries c))
      else c
  | refresh => refreshAllWikiApps c
  | categoriesChanged => refreshAllWikiApps c
  | editingStart entryId userName userId =>
      refreshAllWikiApps
        (set_activeEditors
           (<[entryId := mkSession userName userId]> (activeEditors c)) c)
  | editingStop entryId uid =>
      match activeEditors c !! entryId with
      | Some cur =>
          if decide (userId cur = uid) then
            refreshAllWikiApps
              (set_activeEditors (delete entryId (activeEditors c)) c)
          else c
      | None => c
      end
  end.

(** The body of the loop [for (const [id, session] of activeEditors)] of
    the [userConnected] hook. *)
Definition release_step (uid : string) (acc : gmap string Session)
    (p : string * Session) : gmap string Session :=
  let '(id, session) := p in
  if decide (userId session = uid) then delete id acc else acc.

(** The loop, run over the entries of the map. *)
Definition release_locks (uid : string) (m : gmap string Session) : gmap string Session :=
  foldl (release_step uid) m (map_to_list m).

Definition userConnected (u : User.t) (connected : bool) (c : Client) : Client :=
  if connected then c
  else refreshAllWikiApps
         (set_activeEditors (release_locks (User.id u) (activeEditors c)) c).

(** ** View projection: [PartyWikiApp] *)

Record App := mkApp {
  _activeCat : option string;
  _selectedEntry : option string;
  _searchQuery : string;
}.

(** [this._selectedEntry] is falsy when it is [null] or the empty string. *)
Definition selected (app : App) : option string :=
  match _selectedEntry app with
  | Some s => if Js.truthy s then Some s else None
  | None => None
  end.

Record EntryWithStatus := mkEntryWithStatus {
  entry : Entry.t;                 (* [...e] *)
  beingEditedBy : option string;
  categoryLabel : option string;
  bodyMatch : bool;
}.

Record CategoryWithCount := mkCategoryWithCount {
  cat : Category.t;                (* [...cat] *)
  count : nat;
}.

Record FormattedComment := mkFormattedComment {
  comment : Comment.t;             (* [...c] *)
  createdAtFormatted : string;
  canDelete : bool;
}.

(** The object returned by [_prepareContext]. *)
Module Context.
Record t := mk {
  categories : list CategoryWithCount;
  activeCat : option string;
  entries : list EntryWithStatus;
  current : option Entry.t;
  currentEditor : option string;
  enrichedContent : option string;
  gmNotes : option string;
  formattedComments : list FormattedComment;
  hasComments : bool;
  isGM : bool;
  gmOnline : bool;
  searchQuery : string;
  isSearching : bool;
  noEntries : bool;
  pendingDeletions : nat;
  updatedAtFormatted : option string;
}.
End Context.

Definition dq : string := String "034" "".

Definition link_resolved (id title : string) : string :=
  "<a class=" +:+ dq +:+ "wiki-entry-link" +:+ dq +:+ " data-id=" +:+ dq +:+
  id +:+ dq +:+ ">" +:+ title +:+ "</a>".

Definition link_missing (title : string) : string :=
  "<a class=" +:+ dq +:+ "wiki-entry-link wiki-entry-link-missing" +:+ dq +:+
  " title=" +:+ dq +:+ "No entry found: " +:+ title +:+ dq +:+ ">" +:+
  title +:+ "</a>".

(** The replacer of [processEntryLinks]. *)
Definition render_link (allEntries : list Entry.t) (rawTitle : string) : string :=
  let title := Js.trim rawTitle in
  match List.find
          (λ e, bool_decide (Js.toLowerCase (Entry.title e) = Js.toLowerCase title))
          allEntries with
  | Some linked => link_resolved (Entry.id linked) title
  | None => link_missing title
  end.

Definition processEntryLinks (html : option string) (allEntries : list Entry.t) : option string :=
  match html with
  | None => None
  | Some h =>
      if Js.truthy h then Some (Js.replace_links (render_link allEntries) 0 h)
      else Some h
  end.

Definition bodyText (e : Entry.t) : string :=
  if Js.truthy (Entry.content e)
  then Js.toLowerCase (Js.strip_tags (Entry.content e))
  else "".

Definition titleHit (q : string) (e : Entry.t) : bool :=
  Js.includes (Js.toLowerCase (Entry.title e)) q.

(** The predicate of the [entries.filter] call. *)
Definition visible_in_list (app : App) (isGM : bool) (e : Entry.t) : bool :=
  let q := Js.toLowerCase (_searchQuery app) in
  if Entry.hidden e && negb isGM then false
  else if Js.truthy q then titleHit q e || Js.includes (bodyText e) q
  else bool_decide (Some (Entry.category e) = _activeCat app).

Definition _filterEntries (app : App) (entries : list Entry.t) (isGM : bool) : list Entry.t :=
  List.filter (visible_in_list app isGM) entries.

(** [entries.find(e => e.id === id)] *)
Definition find_entry (id : string) (entries : list Entry.t) : option Entry.t :=
  List.find (λ e, bool_decide (Entry.id e = id)) entries.

(** The selection check: the selected id is dropped when no entry has it or
    when the entry is hidden from this user. *)
Definition validate_selection (entries : list Entry.t) (isGM : bool) (app : App) : App :=
  match selected app with
  | None => app
  | Some id =>
      match find_entry id entries with
      | Some sel =>
          if Entry.hidden sel && negb isGM
          then mkApp (_activeCat app) None (_searchQuery app)
          else app
      | None => mkApp (_activeCat app) None (_searchQuery app)
      end
  end.

(** The active category falls back to the first configured one. *)
Definition validate_activeCat (cats : list Category.t) (app : App) : App :=
  match List.find (λ c, bool_decide (Some (Category.id c) = _activeCat app)) cats with
  | Some _ => app
  | None => mkApp (Category.id <$> head cats) (_selectedEntry app) (_searchQuery app)
  end.

Definition editor_of (c : Client) (id : string) : option string :=
  userName <$> activeEditors c !! id.

Definition count_in_category (entries : list Entry.t) (c : Category.t) : CategoryWithCount :=
  mkCategoryWithCount c
    (length (List.filter (λ e, bool_decide (Entry.category e = Category.id c)) entries)).

Section View.

(** Host services: [TextEditor.enrichHTML] and
    [new Date(t).toLocaleString(...)]. *)
Context (enrichHTML : string → string) (toLocaleString : Z → string).

Definition _formatComments (c : Client) (comments : list Comment.t) (isGM : bool)
  : list FormattedComment :=
  (λ cm, mkFormattedComment cm (toLocaleString (Comment.createdAt cm))
           (isGM || bool_decide (Comment.userId cm = User.id (user c))))
  <$> comments.

(** The callback of [filtered.map] once [cats] is available. *)
Definition annotate (c : Client) (q : string) (cats : list Category.t) (e : Entry.t)
  : EntryWithStatus :=
  mkEntryWithStatus e
    (editor_of c (Entry.id e))
    (if Js.truthy q then
       Some (default (Entry.category e)
               (Category.label <$>
                  List.find (λ k, bool_decide (Category.id k = Entry.category e)) cats))
     else None)
    (if Js.truthy q then
       if titleHit q e then false else Js.includes (bodyText e) q
     else false).

(** What both revisions compute from the validated view state. *)
Definition assemble (c : Client) (app : App) (cats : list Category.t)
    (filtered : list Entry.t) (entriesWithStatus : list EntryWithStatus) : Context.t :=
  let entries := getEntries c in
  let isGM := User.isGM (user c) in
  let current :=
    match selected app with
    | Some id => find_entry id entries
    | None => None
    end in
  let enrichedContent :=
    match current with
    | Some cur =>
        if Js.truthy (Entry.content cur) then Some (enrichHTML (Entry.content cur))
        else None
    | None => None
    end in
  let formattedComments :=
    _formatComments c (default [] (current ≫= Entry.comments)) isGM in
  Context.mk
    (count_in_category entries <$> cats)
    (_activeCat app)
    entriesWithStatus
    current
    (current ≫= λ cur, editor_of c (Entry.id cur))
    (processEntryLinks enrichedContent entries)
    (if isGM then current ≫= Entry.gmNotes else None)
    formattedComments
    (bool_decide (0 < length formattedComments))
    isGM
    (isGM || bool_decide (is_Some (activeGM c)))
    (_searchQuery app)
    (Js.truthy (_searchQuery app))
    (bool_decide (length filtered = 0))
    (length (List.filter Entry.pendingDelete entries))
    (match current with
     | Some cur =>
         if bool_decide (Entry.updatedAt cur = 0%Z) then None
         else Some (toLocaleString (Entry.updatedAt cur))
     | None => None
     end).

(** Second revision: the categories are read and the active category is
    validated before anything else. *)
Definition _prepareContext (c : Client) (app : App) : Context.t * App :=
  let entries := getEntries c in
  let isGM := User.isGM (user c) in
  let q := Js.toLowerCase (_searchQuery app) in
  let cats := getCategories c in
  let app1 := validate_activeCat cats app in
  let filtered := _filterEntries app1 entries isGM in
  let app2 := validate_selection entries isGM app1 in
  (assemble c app2 cats filtered (annotate c q cats <$> filtered), app2).

(** First revision: the list is filtered with the active category as it
    stands, and [const cats] is declared after the [filtered.map] whose
    callback reads it when a query is set; that read raises a
    [ReferenceError], rendered as [None].  Where the callback does run, the
    query is empty and it never looks at the categories. *)
Definition _prepareContext_v1 (c : Client) (app : App) : option Context.t * App :=
  let entries := getEntries c in
  let isGM := User.isGM (user c) in
  let q := Js.toLowerCase (_searchQuery app) in
  let filtered := _filterEntries app entries isGM in
  let app1 := validate_selection entries isGM app in
  if Js.truthy q && negb (bool_decide (filtered = [])) then (None, app1)
  else
    let cats := getCategories c in
    let app2 := validate_activeCat cats app1 in
    (Some (assemble c app2 cats filtered (annotate c q [] <$> filtered)), app2).

End View.

(** ** Entry mutators of [PartyWikiApp]

    Each handler takes the view state and the client and returns both as the
    handler leaves them.  The answer of a confirmation dialog, the text of an
    input, [Date.now()] and [generateId()] are arguments. *)

(** [entries.findIndex(en => en.id === id)]; [None] stands for [-1]. *)
Definition findIndex (id : string) (entries : list Entry.t) : option (nat * Entry.t) :=
  list_find (λ en, Entry.id en = id) entries.

Definition clear_selection (app : App) : App :=
  mkApp (_activeCat app) None (_searchQuery app).

Definition _onClickToggleHidden (app : App) (c : Client) : Client :=
  match selected app with
  | None => c
  | Some id =>
      if negb (User.isGM (user c)) then c
      else
        match findIndex id (getEntries c) with
        | None => c
        | Some (idx, en) =>
            (saveEntries
               (<[idx := Entry.with_hidden (negb (Entry.hidden en)) en]> (getEntries c))
               c).2
        end
  end.

(** [getEntries().map(en => en.id === id ? { ...en, pendingDelete: p } : en)] *)
Definition flag_entry (id : string) (p : bool) (entries : list Entry.t) : list Entry.t :=
  (λ en, if decide (Entry.id en = id) then Entry.with_pendingDelete p en else en)
  <$> entries.

Definition _onClickRequestDelete (ok : bool) (app : App) (c : Client) : Client :=
  match selected app with
  | None => c
  | Some id =>
      if ok then (saveEntries (flag_entry id true (getEntries c)) c).2 else c
  end.

Definition _onClickCancelDelete (app : App) (c : Client) : Client :=
  match selected app with
  | None => c
  | Some id => (saveEntries (flag_entry id false (getEntries c)) c).2
  end.

Definition _onClickGmDelete (ok : bool) (app : App) (c : Client) : App * Client :=
  match selected app with
  | None => (app, c)
  | Some id =>
      if ok then
        let entries :=
          List.filter (λ en, negb (bool_decide (Entry.id en = id))) (getEntries c) in
        (clear_selection app, (saveEntries entries c).2)
      else (app, c)
  end.

(** [text] is the value of the comment input, if the input exists. *)
Definition _submitComment (text : option string) (newId : string) (now : Z)
    (app : App) (c : Client) : Client :=
  match selected app with
  | None => c
  | Some id =>
      match Js.trim <$> text with
      | None => c
      | Some txt =>
          if negb (Js.truthy txt) then c
          else
            match findIndex id (getEntries c) with
            | None => c
            | Some (idx, en) =>
                let cm :=
                  Comment.mk newId (User.name (user c)) (User.id (user c)) txt now in
                let en' :=
                  Entry.with_comments (default [] (Entry.comments en) ++ [cm]) en in
                (saveEntries (<[idx := en']> (getEntries c)) c).2
            end
      end
  end.

Definition _deleteComment (commentId : string) (app : App) (c : Client) : Client :=
  match selected app with
  | None => c
  | Some id =>
      match findIndex id (getEntries c) with
      | None => c
      | Some (idx, en) =>
          let kept :=
            List.filter (λ cm, negb (bool_decide (Comment.id cm = commentId)))
                        (default [] (Entry.comments en)) in
          (saveEntries (<[idx := Entry.with_comments kept en]> (getEntries c)) c).2
      end
  end.

(** ** [WikiEntryEditor] *)

(** The editor is opened on a stored entry or on the stub
    [{ category: this._activeCat }] of the new-entry button. *)
Inductive EditorEntry :=
  | existing (e : Entry.t)
  | stub (category : option string).

Record Editor := mkEditor {
  _entry : EditorEntry;
  _broadcastedStart : bool;
}.

(** [this._entry?.id] when it is truthy. *)
Definition editor_entry_id (ed : Editor) : option string :=
  match _entry ed with
  | existing e => if Js.truthy (Entry.id e) then Some (Entry.id e) else None
  | stub _ => None
  end.

(** What [_handleSave] reads from the form and the DOM.  A field is [None]
    when the form control is absent. *)
Record Form := mkForm {
  fd_title : option string;
  fd_category : string;
  editor_innerHTML : option string;
  fd_content : option string;
  gmNotes_value : option string;
  hidden_checked : option bool;
}.

Definition form_content (f : Form) : string :=
  match editor_innerHTML f with
  | Some html => html
  | None => default "" (fd_content f)
  end.

(** [gmNotesEl?.value ?? this._entry?.gmNotes ?? ""] *)
Definition form_gmNotes (ed : Editor) (f : Form) : string :=
  match gmNotes_value f with
  | Some v => v
  | None =>
      match _entry ed with
      | existing e => default "" (Entry.gmNotes e)
      | stub _ => ""
      end
  end.

Definition form_hidden (f : Form) : bool := default false (hidden_checked f).

(** The object literal of the update branch. *)
Definition updated_entry (c : Client) (ed : Editor) (f : Form) (title : string)
    (now : Z) (old : Entry.t) : Entry.t :=
  let isGM := User.isGM (user c) in
  Entry.mk (Entry.id old) title (fd_category f) (form_content f)
    (if isGM then form_hidden f else Entry.hidden old)
    false
    (Entry.createdAt old) now
    (Entry.createdBy old) (User.name (user c))
    (if isGM then Some (form_gmNotes ed f) else Entry.gmNotes old)
    (Some (default [] (Entry.comments old))).

(** The object literal of the create branch. *)
Definition created_entry (c : Client) (ed : Editor) (f : Form) (title : string)
    (now : Z) (newId : string) : Entry.t :=
  let isGM := User.isGM (user c) in
  Entry.mk newId title (fd_category f) (form_content f)
    (if isGM then form_hidden f else false)
    false
    now now
    (User.name (user c)) (User.name (user c))
    (if isGM then Some (form_gmNotes ed f) else None)
    (Some []).

(** The collection [_handleSave] hands to [saveEntries], for a title that
    passed the check. *)
Definition edited_entries (c : Client) (ed : Editor) (f : Form) (title : string)
    (now : Z) (newId : string) : list Entry.t :=
  let entries := getEntries c in
  match editor_entry_id ed with
  | Some id =>
      match findIndex id entries with
      | Some (idx, old) => <[idx := updated_entry c ed f title now old]> entries
      | None => entries
      end
  | None => entries ++ [created_entry c ed f title now newId]
  end.

(** Every entry of the collection has its [comments] key.  The script
    creates an entry with [comments: []], rewrites one with
    [comments ?? []], and the comment handlers assign the key: a collection
    written by the script stays in this form. *)
Definition comments_present (entries : list Entry.t) : Prop :=
  ∀ e, e ∈ entries → is_Some (Entry.comments e).

(** What a handler leaves behind is in that form: the local store, and
    every collection newly sent for the GM to store. *)
Definition writes_comments (c c' : Client) : Prop :=
  comments_present (getEntries c') ∧
  ∀ es, requestSave es ∈ sent c' → requestSave es ∈ sent c ∨ comments_present es.

(** The edit button: the editor opens on the stored entry that has the
    selected id. *)
Definition _onClickEdit (app : App) (c : Client) : option Editor :=
  match selected app with
  | None => None
  | Some id => (λ e, mkEditor (existing e) false) <$> find_entry id (getEntries c)
  end.

Definition _onClickNew (app : App) : Editor := mkEditor (stub (_activeCat app)) false.

(** The soft-lock part of the editor's [_onRender]: on the first render of
    an existing entry the lock is set locally and [editingStart] is sent. *)
Definition _onRender (ed : Editor) (c : Client) : Editor * Client :=
  match _broadcastedStart ed, editor_entry_id ed with
  | false, Some id =>
      (mkEditor (_entry ed) true,
       refreshAllWikiApps
         (emit (editingStart id (User.name (user c)) (User.id (user c)))
            (set_activeEditors
               (<[id := mkSession (User.name (user c)) (User.id (user c))]>
                  (activeEditors c)) c)))
  | _, _ => (ed, c)
  end.

Definition _broadcastEditingStop (ed : Editor) (c : Client) : Editor * Client :=
  match _broadcastedStart ed, editor_entry_id ed with
  | true, Some id =>
      (mkEditor (_entry ed) false,
       refreshAllWikiApps
         (emit (editingStop id (User.id (user c)))
            (set_activeEditors (delete id (activeEditors c)) c)))
  | _, _ => (ed, c)
  end.

(** The last component tells whether the editor window was closed. *)
Definition _handleSave (f : Form) (now : Z) (newId : string) (ed : Editor) (c : Client)
    : Editor * Client * bool :=
  match Js.trim <$> fd_title f with
  | Some title =>
      if Js.truthy title then
        let '(saved, c1) := saveEntries (edited_entries c ed f title now newId) c in
        if saved then
          let '(ed2, c2) := _broadcastEditingStop ed c1 in (ed2, c2, true)
        else (ed, c1, false)
      else (ed, notify (warn "Please enter a title for the entry.") c, false)
  | None => (ed, notify (warn "Please enter a title for the entry.") c, false)
  end.

(** ** [WikiCategorySettings] *)

(** A [.wiki-cat-row] of the settings window with its two inputs. *)
Record Row := mkRow {
  row_id : string;
  label_input : option string;
  icon_input : option string;
}.

Definition sync_row (working : list Category.t) (row : Row) : list Category.t :=
  match list_find (λ k, Category.id k = row_id row) working with
  | None => working
  | Some (i, k) =>
      let k1 :=
        match Js.trim <$> label_input row with
        | Some l =>
            if Js.truthy l then Category.mk (Category.id k) l (Category.icon k) else k
        | None => k
        end in
      let k2 :=
        match Js.trim <$> icon_input row with
        | Some ic =>
            if Js.truthy ic then Category.mk (Category.id k1) (Category.label k1) ic else k1
        | None => k1
        end in
      <[i := k2]> working
  end.

Definition _syncFromDOM (rows : list Row) (working : list Category.t) : list Category.t :=
  foldl sync_row working rows.

(** The delete button of a row, after the confirmation dialog. *)
Definition delete_category (ok : bool) (catId : string) (rows : list Row)
    (working : list Category.t) : list Category.t :=
  if ok then
    List.filter (λ k, negb (bool_decide (Category.id k = catId))) (_syncFromDOM rows working)
  else working.

(** [!cat.label?.trim()] *)
Definition unnamed (k : Category.t) : bool :=
  negb (Js.truthy (Js.trim (Category.label k))).

(** [game.settings.set(MODULE_ID, CATS_SETTING_KEY, cs)]: a world-scoped
    setting is written by a GM only (the note in the file header); for any
    other user the host refuses the write, rendered as [None]. *)
Definition set_categories_setting (cs : list Category.t) (c : Client) : option Client :=
  if User.isGM (user c) then Some (set_wikiCategories cs c) else None.

(** [_save]: the working set after the call, the client, and whether the
    window was closed.  When the host refuses the write, the awaited call
    fails and [_save] ends there: nothing is sent or shown and the window
    stays open. *)
Definition _save (rows : list Row) (working : list Category.t) (c : Client)
    : list Category.t * Client * bool :=
  let wk := _syncFromDOM rows working in
  if bool_decide (length wk = 0) then
    (wk, notify (warn "Adventurer Wiki: You must keep at least one category.") c, false)
  else if existsb unnamed wk then
    (wk, notify (warn "Adventurer Wiki: All categories must have a name.") c, false)
  else
    match set_categories_setting wk c with
    | Some c1 =>
        (wk,
         notify (info "Adventurer Wiki: Categories saved.")
           (refreshAllWikiApps (emit categoriesChanged c1)),
         true)
    | None => (wk, c, false)
    end.

(** ** Navigation of [PartyWikiApp]

    The category tabs, the sidebar items, the resolved cross-reference links
    and the search box only change the view state; the re-render that
    follows is [_prepareContext]. *)

Definition _onClickCatTab (cat : string) (app : App) : App :=
  mkApp (Some cat) None (_searchQuery app).

Definition _onClickEntryItem (id : string) (app : App) : App :=
  mkApp (_activeCat app) (Some id) (_searchQuery app).

Definition _onClickEntryLink (id : string) (app : App) : App :=
  mkApp (_activeCat app) (Some id) (_searchQuery app).

(** The [input] listener of the search box. *)
Definition _input (value : string) (app : App) : App :=
  mkApp (_activeCat app) (_selectedEntry app) value.

(** ** [WikiCategorySettings]: reordering and adding *)

(** [[w[i], w[j]] = [w[j], w[i]]] for two positions of the array. *)
Definition swap (i j : nat) (w : list Category.t) : list Category.t :=
  match w !! i, w !! j with
  | Some x, Some y => <[i := y]> (<[j := x]> w)
  | _, _ => w
  end.

(** The move-up button of a row. *)
Definition move_up (catId : string) (rows : list Row) (working : list Category.t)
    : list Category.t :=
  let wk := _syncFromDOM rows working in
  match list_find (λ k, Category.id k = catId) wk with
  | Some (idx, _) => if bool_decide (0 < idx) then swap (idx - 1) idx wk else wk
  | None => wk
  end.

(** The move-down button of a row.  For an id that is not in a non-empty
    working set [findIndex] gives [-1], the test [-1 < length - 1] passes and
    the swap writes [undefined] into slot 0: that array is no category list,
    and the result is [None]. *)
Definition move_down (catId : string) (rows : list Row) (working : list Category.t)
    : option (list Category.t) :=
  let wk := _syncFromDOM rows working in
  match list_find (λ k, Category.id k = catId) wk with
  | Some (idx, _) =>
      Some (if bool_decide (idx + 1 < length wk) then swap idx (idx + 1) wk else wk)
  | None => if bool_decide (wk = []) then Some wk else None
  end.

(** The id of a new category is derived from its label in four
    replacements. *)

(** [.replace(/\s+/g, "-")]; the flag says whether the previous character
    was white space. *)
Fixpoint dash_spaces (in_space : bool) (s : string) : string :=
  match s with
  | "" => ""
  | String c r =>
      if Js.is_space c then
        if in_space then dash_spaces true r else String "-" (dash_spaces true r)
      else String c (dash_spaces false r)
  end.

(** The class [[a-z0-9-]]. *)
Definition slug_char (c : ascii) : bool :=
  let n := nat_of_ascii c in
  ((97 <=? n) && (n <=? 122)) || ((48 <=? n) && (n <=? 57)) || bool_decide (c = "-"%char).

(** [.replace(/[^a-z0-9-]/g, "")] *)
Fixpoint keep_slug_chars (s : string) : string :=
  match s with
  | "" => ""
  | String c r => if slug_char c then String c (keep_slug_chars r) else keep_slug_chars r
  end.

(** [.replace(/-+/g, "-")]; the flag says whether the previous character was
    a hyphen. *)
Fixpoint collapse_dashes (in_dash : bool) (s : string) : string :=
  match s with
  | "" => ""
  | String c r =>
      if bool_decide (c = "-"%char) then
        if in_dash then collapse_dashes true r else String "-" (collapse_dashes true r)
      else String c (collapse_dashes false r)
  end.

Fixpoint drop_last_dash (s : string) : string :=
  match s with
  | "" => ""
  | String c "" => if bool_decide (c = "-"%char) then "" else s
  | String c r => String c (drop_last_dash r)
  end.

(** [.replace(/^-|-$/g, "")]: one hyphen at the start and one at the end. *)
Definition strip_dash_ends (s : string) : string :=
  match s with
  | String "-" r => drop_last_dash r
  | _ => drop_last_dash s
  end.

Definition slug (label : string) : string :=
  strip_dash_ends
    (collapse_dashes false (keep_slug_chars (dash_spaces false (Js.toLowerCase label)))).

(** The add button.  [label_in] and [icon_in] are the values of the two
    inputs of the new-category row, [stamp] is the text of [Date.now()]. *)
Definition add_category (label_in icon_in : option string) (stamp : string)
    (rows : list Row) (working : list Category.t) (c : Client)
    : list Category.t * Client :=
  let no_name := notify (warn "Adventurer Wiki: Please enter a category name.") c in
  match Js.trim <$> label_in with
  | None => (working, no_name)
  | Some label =>
      if negb (Js.truthy label) then (working, no_name)
      else
        let icon :=
          match Js.trim <$> icon_in with
          | Some i => if Js.truthy i then i else "fa-tag"
          | None => "fa-tag"
          end in
        let id := if Js.truthy (slug label) then slug label else "cat-" +:+ stamp in
        match List.find (λ k, bool_decide (Category.id k = id)) working with
        | Some _ =>
            (working,
             notify (warn ("Adventurer Wiki: A category named " +:+ dq +:+ label +:+
                           dq +:+ " already exists.")) c)
        | None => (_syncFromDOM rows working ++ [Category.mk id label icon], c)
        end
  end.

(** [all_chars p s]: every character of [s] satisfies [p]. *)
Fixpoint all_chars (p : ascii → bool) (s : string) : bool :=
  match s with
  | "" => true
  | String c r => p c && all_chars p r
  end.

(** ** A sample world

    A GM and two players; a visible entry that refers to a hidden one, with
    GM notes and a comment by Alice. *)

Module Sample.

Definition gm : User.t := User.mk "u-gm" "Gamemaster" true true.
Definition gm_away : User.t := User.mk "u-gm" "Gamemaster" true false.
Definition alice : User.t := User.mk "u-alice" "Alice" false true.
Definition bob : User.t := User.mk "u-bob" "Bob" false true.

Definition note : Comment.t :=
  Comment.mk "entry_3" "Alice" "u-alice" "Cheap ale." 30%Z.

Definition tavern : Entry.t :=
  Entry.mk "entry_1" "Tavern" "lore" "<p>See [[the vault]] below.</p>"
    false false 10%Z 11%Z "Alice" "Alice"
    (Some "The innkeeper is a spy.") (Some [note]).

Definition vault : Entry.t :=
  Entry.mk "entry_2" "The Vault" "lore" "<p>Gold.</p>"
    true false 20%Z 21%Z "Gamemaster" "Gamemaster"
    (Some "Trapped.") (Some []).

(** An entry a Player created, no longer in the store. *)
Definition old_road : Entry.t :=
  Entry.mk "entry_0" "Old Road" "locations" "<p>Dusty.</p>"
    false true 1%Z 2%Z "Alice" "Alice" None (Some []).

Definition client (me : User.t) (everyone : list User.t) (es : list Entry.t) : Client :=
  mkClient me everyone es DEFAULT_CATEGORIES ∅ [] [] 0.

Definition of_gm : Client := client gm [gm; alice; bob] [tavern; vault].
Definition of_bob : Client := client bob [gm; alice; bob] [tavern; vault].
Definition of_bob_alone : Client := client bob [gm_away; alice; bob] [tavern; vault].
Definition of_alice : Client := client alice [gm; alice; bob] [tavern; vault].

(** Bob's wiki window: the Lore tab with the tavern selected. *)
Definition window : App := mkApp (Some "lore") (Some "entry_1") "".

(** Host services for the samples: enrichment leaves the text as it is. *)
Definition enrich (html : string) : string := html.
Definition show_date (t : Z) : string := "a date".

Definition form : Form :=
  mkForm (Some " Old Road ") "locations" (Some "<p>Paved.</p>") None None None.

Definition rows : list Row := [mkRow "lore" (Some "Lore") (Some "fa-book-open")].

(** The working set after the only category was removed. *)
Definition last_removed : list Category.t :=
  delete_category true "lore" rows [Category.mk "lore" "Lore" "fa-book-open"].

(** The editor the tavern entry was opened in. *)
Definition editor : Editor := mkEditor (existing tavern) true.

(** Bob's window after he followed the link to the hidden vault entry. *)
Definition at_vault : App := _onClickEntryLink "entry_2" window.

(** An editor still open on an entry that is no longer stored. *)
Definition stale_editor : Editor := mkEditor (existing old_road) true.


Definition blank_form : Form := mkForm (Some "   ") "lore" None None None None.

(** The rows of the settings window showing the default categories. *)
Definition default_rows : list Row :=
  (λ k, mkRow (Category.id k) (Some (Category.label k)) (Some (Category.icon k)))
  <$> DEFAULT_CATEGORIES.

End Sample.

(** * Properties *)

(** ** String primitives on sample inputs *)

Example trim_ex : Js.trim "  The Vault " = "The Vault".
Proof. reflexivity. Qed.

Example strip_tags_ex : Js.strip_tags "<p>a<b>c</p> 1 < 2" = " a c  1 < 2".
Proof. reflexivity. Qed.

Example replace_links_ex :
  Js.replace_links (λ t, "<" +:+ t +:+ ">") 0 "x [[a b]] [[]] [[c]]]"
  = "x <a b> [[]] <c>]".
Proof. reflexivity. Qed.

(** ** The write gateway *)

Lemma activeGM_None (c : Client) :
  activeGM c = None ↔ ∀ u, u ∈ users c → ¬ (User.isGM u = true ∧ User.active u = true).
Proof.
  unfold activeGM. split.
  - intros Hnone u Hu [Hg Ha].
    apply list_elem_of_In in Hu.
    pose proof (List.find_none _ _ Hnone u Hu) as Hf. simpl in Hf.
    rewrite Hg, Ha in Hf. discriminate.
  - intros Hall. destruct (List.find _ (users c)) as [u|] eqn:Hfind; [|done].
    apply List.find_some in Hfind as [Hin Hb].
    apply andb_true_iff in Hb. apply list_elem_of_In in Hin.
    destruct (Hall u Hin Hb).
Qed.

(** C1. A Player with no connected GM: [saveEntries] returns [false], shows
    the warning, and neither writes the setting nor sends anything, so the
    entries read afterwards are those read before. *)
Theorem saveEntries_blocked (E : list Entry.t) (c : Client) :
  User.isGM (user c) = false →
  (∀ u, u ∈ users c → ¬ (User.isGM u = true ∧ User.active u = true)) →
  (saveEntries E c).1 = false ∧
  notifications (saveEntries E c).2 = notifications c ++ [warn no_gm_warning] ∧
  getEntries (saveEntries E c).2 = getEntries c ∧
  wikiEntries (saveEntries E c).2 = wikiEntries c ∧
  sent (saveEntries E c).2 = sent c.
Proof.
  intros Hplayer Hnogm. apply activeGM_None in Hnogm.
  unfold saveEntries. rewrite Hplayer, Hnogm. simpl. done.
Qed.

(** C2. A GM: [saveEntries E] stores [E], so that [getEntries] then returns
    exactly [E], and the socket log grows by one message, the [refresh]. *)
Theorem saveEntries_gm_commit (E : list Entry.t) (c : Client) :
  User.isGM (user c) = true →
  (saveEntries E c).1 = true ∧
  getEntries (saveEntries E c).2 = E ∧
  sent (saveEntries E c).2 = sent c ++ [refresh].
Proof.
  intros Hgm. unfold saveEntries. rewrite Hgm. simpl. done.
Qed.

(** The relayed request, handled on a GM client, stores the proposal. *)
Lemma onSocket_requestSave_gm (E : list Entry.t) (c : Client) :
  User.isGM (user c) = true →
  getEntries (onSocket (requestSave E) c) = E ∧
  sent (onSocket (requestSave E) c) = sent c ++ [refresh].
Proof. intros Hgm. simpl. rewrite Hgm. done. Qed.

Lemma onSocket_requestSave_player (E : list Entry.t) (c : Client) :
  User.isGM (user c) = false → onSocket (requestSave E) c = c.
Proof. intros Hp. simpl. by rewrite Hp. Qed.

(** ** The presence tracker *)

(** C7. From any presence map, [editingStart(X, u1)] followed by
    [editingStop(X, u1)] leaves [X] without a lock, and followed by
    [editingStop(X, u2)] with [u2 ≠ u1] leaves [X] locked by [u1]. *)
Theorem lock_lifecycle (c : Client) (X n1 u1 u2 : string) :
  u1 ≠ u2 →
  activeEditors (onSocket (editingStop X u1) (onSocket (editingStart X n1 u1) c)) !! X
    = None ∧
  activeEditors (onSocket (editingStop X u2) (onSocket (editingStart X n1 u1) c)) !! X
    = Some (mkSession n1 u1).
Proof.
  intros Hne. simpl. rewrite !lookup_insert_eq. simpl.
  rewrite decide_True by done. rewrite decide_False by done. simpl.
  rewrite lookup_delete_eq, lookup_insert_eq. done.
Qed.

(** Opening the editor on an existing entry sets the lock locally and sends
    one [editingStart]; a replica that handles that message holds the same
    session for the entry. *)
Lemma editingStart_replicated (ed : Editor) (c replica : Client) (id : string) :
  _broadcastedStart ed = false → editor_entry_id ed = Some id →
  ∃ m,
    sent (_onRender ed c).2 = sent c ++ [m] ∧
    activeEditors (onSocket m replica) !! id = activeEditors (_onRender ed c).2 !! id ∧
    activeEditors (_onRender ed c).2 !! id
      = Some (mkSession (User.name (user c)) (User.id (user c))).
Proof.
  intros Hflag Hid. unfold _onRender. rewrite Hflag, Hid.
  eexists. split; [reflexivity|]. simpl. by rewrite !lookup_insert_eq.
Qed.

(** Closing that editor sends the matching [editingStop], which releases the
    lock on a replica that still holds the opener's session. *)
Lemma editingStop_replicated (ed : Editor) (c replica : Client) (id n : string) :
  _broadcastedStart ed = true → editor_entry_id ed = Some id →
  activeEditors replica !! id = Some (mkSession n (User.id (user c))) →
  ∃ m,
    sent (_broadcastEditingStop ed c).2 = sent c ++ [m] ∧
    activeEditors (onSocket m replica) !! id = None ∧
    activeEditors (_broadcastEditingStop ed c).2 !! id = None.
Proof.
  intros Hflag Hid Hheld. unfold _broadcastEditingStop. rewrite Hflag, Hid.
  eexists. split; [reflexivity|]. simpl. rewrite Hheld. simpl.
  rewrite decide_True by done. simpl. by rewrite !lookup_delete_eq.
Qed.

(** X5. What a stop event does to every key of the map: the lock of the named
    entry goes when its holder is the sender, and nothing else changes. *)
Lemma editingStop_lookup (c : Client) (X u k : string) :
  activeEditors (onSocket (editingStop X u) c) !! k =
  match activeEditors c !! k with
  | Some s => if decide (k = X ∧ userId s = u) then None else Some s
  | None => None
  end.
Proof.
  simpl. destruct (activeEditors c !! X) as [cur|] eqn:Hcur.
  - destruct (decide (userId cur = u)) as [Hu|Hu]; simpl.
    + destruct (decide (k = X)) as [->|Hk].
      * rewrite lookup_delete_eq, Hcur. by rewrite decide_True.
      * rewrite lookup_delete_ne by done.
        destruct (activeEditors c !! k); [|done].
        rewrite decide_False; [done|]. by intros [? _].
    + destruct (activeEditors c !! k) eqn:Hk; [|done].
      rewrite decide_False; [done|]. intros [-> ?]. congruence.
  - destruct (activeEditors c !! k) eqn:Hk; [|done].
    rewrite decide_False; [done|]. intros [-> _]. congruence.
Qed.

(** A stop event for an entry nobody holds changes nothing. *)
Lemma editingStop_unlocked (c : Client) (X u : string) :
  activeEditors c !! X = None → onSocket (editingStop X u) c = c.
Proof. intros H. simpl. by rewrite H. Qed.

Lemma release_fold_none uid (l : list (string * Session)) (acc : gmap string Session) k :
  acc !! k = None → foldl (release_step uid) acc l !! k = None.
Proof.
  revert acc. induction l as [|[id s] l IH]; intros acc Hk; simpl; [done|].
  apply IH. destruct (decide (userId s = uid)); [|done].
  destruct (decide (id = k)) as [->|Hne].
  - apply lookup_delete_eq.
  - by rewrite lookup_delete_ne.
Qed.

Lemma release_fold_held uid (l : list (string * Session)) (acc : gmap string Session) k s :
  (k, s) ∈ l → userId s = uid → foldl (release_step uid) acc l !! k = None.
Proof.
  revert acc. induction l as [|[id s'] l IH]; intros acc Hin Hu; simpl.
  - by apply elem_of_nil in Hin.
  - apply elem_of_cons in Hin as [Heq|Hin].
    + inversion Heq; subst id s'. rewrite decide_True by done.
      apply release_fold_none, lookup_delete_eq.
    + by apply IH.
Qed.

Lemma release_fold_other uid (l : list (string * Session)) (acc : gmap string Session) k :
  (∀ s, (k, s) ∈ l → userId s ≠ uid) →
  foldl (release_step uid) acc l !! k = acc !! k.
Proof.
  revert acc. induction l as [|[id s'] l IH]; intros acc Hall; simpl; [done|].
  rewrite IH by (intros s Hs; apply Hall; by right).
  destruct (decide (userId s' = uid)) as [Hu|]; [|done].
  destruct (decide (id = k)) as [->|Hne].
  - exfalso. apply (Hall s'); [by left | done].
  - by rewrite lookup_delete_ne.
Qed.

(** The outcome of the loop for any visiting order of the entries. *)
Lemma release_fold_lookup uid (m : gmap string Session) (l : list (string * Session)) k :
  (∀ i s, (i, s) ∈ l ↔ m !! i = Some s) →
  foldl (release_step uid) m l !! k =
  match m !! k with
  | Some s => if decide (userId s = uid) then None else Some s
  | None => None
  end.
Proof.
  intros Hl.
  destruct (m !! k) as [s|] eqn:Hk.
  - destruct (decide (userId s = uid)) as [Hu|Hu].
    + apply release_fold_held with s; [by apply Hl | done].
    + rewrite release_fold_other; [done|].
      intros s' Hs'. apply Hl in Hs'. by simplify_eq.
  - rewrite release_fold_other; [done|].
    intros s' Hs'. apply Hl in Hs'. congruence.
Qed.

Lemma release_locks_lookup uid (m : gmap string Session) k :
  release_locks uid m !! k =
  match m !! k with
  | Some s => if decide (userId s = uid) then None else Some s
  | None => None
  end.
Proof.
  apply release_fold_lookup. intros i s. apply elem_of_map_to_list.
Qed.

(** The map iterates in insertion order; the result is the same for every
    order in which the entries are visited. *)
Lemma release_locks_any_order uid (m : gmap string Session) (l : list (string * Session)) :
  l ≡ₚ map_to_list m → foldl (release_step uid) m l = release_locks uid m.
Proof.
  intros Hperm. apply map_eq. intros k.
  rewrite release_locks_lookup. apply release_fold_lookup.
  intros i s. rewrite Hperm. apply elem_of_map_to_list.
Qed.

(** C8. A disconnect signal for [u] removes exactly the locks held by
    [u.id]: an entry locked by [u] becomes unlocked, and every other entry
    keeps the lock (or the absence of a lock) it had. *)
Theorem disconnect_releases_exactly_own_locks (c : Client) (u : User.t) (k : string) :
  activeEditors (userConnected u false c) !! k =
  match activeEditors c !! k with
  | Some s => if decide (userId s = User.id u) then None else Some s
  | None => None
  end.
Proof. simpl. apply release_locks_lookup. Qed.

(** A connect signal leaves the client as it is. *)
Lemma userConnected_true (c : Client) (u : User.t) : userConnected u true c = c.
Proof. done. Qed.

(** ** Hidden entries and GM notes in the view projection *)

Section Projection.

Context (enrichHTML : string → string) (toLocaleString : Z → string).

Lemma filtered_not_hidden (app : App) (es : list Entry.t) (e : Entry.t) :
  e ∈ _filterEntries app es false → Entry.hidden e = false ∧ e ∈ es.
Proof.
  unfold _filterEntries. rewrite !list_elem_of_In, List.filter_In.
  intros [Hin Hvis]. split; [|done].
  unfold visible_in_list in Hvis. by destruct (Entry.hidden e).
Qed.

Lemma annotate_entries (c : Client) (q : string) (cats : list Category.t)
    (l : list Entry.t) :
  entry <$> (annotate c q cats <$> l) = l.
Proof. induction l as [|e l IH]; csimpl; [done|]. by f_equal. Qed.

(** X6. Both listing modes of the sidebar, the category tab and the search
    results, go through the same filter: a Player's list has no hidden
    entry, whatever the query and the active category. *)
Lemma player_list_excludes_hidden (c : Client) (app : App) (e : Entry.t) :
  User.isGM (user c) = false →
  e ∈ entry <$> Context.entries (_prepareContext enrichHTML toLocaleString c app).1 →
  Entry.hidden e = false.
Proof.
  intros Hp. unfold _prepareContext, assemble. cbn [fst Context.entries].
  rewrite annotate_entries, Hp.
  intros He. by apply filtered_not_hidden in He as [? _].
Qed.

Lemma player_list_excludes_hidden_v1 (c : Client) (app : App) (ctx : Context.t)
    (e : Entry.t) :
  User.isGM (user c) = false →
  (_prepareContext_v1 enrichHTML toLocaleString c app).1 = Some ctx →
  e ∈ entry <$> Context.entries ctx →
  Entry.hidden e = false.
Proof.
  intros Hp. unfold _prepareContext_v1. rewrite Hp.
  destruct (Js.truthy _ && negb _); simpl; [done|].
  intros [= <-]. unfold assemble. cbn [Context.entries].
  rewrite annotate_entries.
  intros He. by apply filtered_not_hidden in He as [? _].
Qed.

(** In the first revision a search that finds something does not produce
    a context at all. *)
Lemma search_with_results_fails_v1 (c : Client) (app : App) :
  Js.truthy (_searchQuery app) = true →
  _filterEntries app (getEntries c) (User.isGM (user c)) ≠ [] →
  (_prepareContext_v1 enrichHTML toLocaleString c app).1 = None.
Proof.
  intros Hq Hne. unfold _prepareContext_v1.
  assert (Js.truthy (Js.toLowerCase (_searchQuery app)) = true) as ->.
  { by destruct (_searchQuery app). }
  by rewrite bool_decide_eq_false_2.
Qed.

Lemma validated_selection_visible (es : list Entry.t) (app : App) (id : string)
    (e : Entry.t) :
  selected (validate_selection es false app) = Some id →
  find_entry id es = Some e →
  Entry.hidden e = false.
Proof.
  unfold validate_selection.
  destruct (selected app) as [id'|] eqn:Hsel; [|congruence].
  destruct (find_entry id' es) as [sel|] eqn:Hfind; [|done].
  destruct (Entry.hidden sel) eqn:Hh; simpl; [done|].
  rewrite Hsel. intros [= ->]. congruence.
Qed.

(** The selected entry of a Player's context is never a hidden one. *)
Lemma player_current_not_hidden (c : Client) (app : App) (e : Entry.t) :
  User.isGM (user c) = false →
  Context.current (_prepareContext enrichHTML toLocaleString c app).1 = Some e →
  Entry.hidden e = false.
Proof.
  intros Hp. unfold _prepareContext. simpl. rewrite Hp.
  destruct (selected (validate_selection _ _ _)) as [id|] eqn:Hsel; [|done].
  intros Hfind. eauto using validated_selection_visible.
Qed.

(** The top-level [gmNotes] of a Player's context is [null]. *)
Lemma player_top_level_gmNotes (c : Client) (app : App) :
  User.isGM (user c) = false →
  Context.gmNotes (_prepareContext enrichHTML toLocaleString c app).1 = None.
Proof. intros Hp. unfold _prepareContext. simpl. by rewrite Hp. Qed.

(** The entry objects of a context are the stored ones, key for key. *)
Lemma current_is_stored (c : Client) (app : App) (e : Entry.t) :
  Context.current (_prepareContext enrichHTML toLocaleString c app).1 = Some e →
  e ∈ getEntries c.
Proof.
  unfold _prepareContext. simpl.
  destruct (selected _) as [id|]; [|done].
  intros Hfind. apply List.find_some in Hfind as [Hin _].
  by apply list_elem_of_In.
Qed.

Lemma listed_is_stored (c : Client) (app : App) (e : Entry.t) :
  e ∈ entry <$> Context.entries (_prepareContext enrichHTML toLocaleString c app).1 →
  e ∈ getEntries c.
Proof.
  unfold _prepareContext, assemble. cbn [fst Context.entries].
  rewrite annotate_entries.
  unfold _filterEntries. rewrite !list_elem_of_In, List.filter_In. tauto.
Qed.

(** The delete flag of a formatted comment: GM, or the comment's author. *)
Lemma canDelete_spec (c : Client) (cms : list Comment.t) (isGM : bool)
    (fc : FormattedComment) :
  fc ∈ _formatComments toLocaleString c cms isGM →
  canDelete fc = true ↔
  isGM = true ∨ Comment.userId (comment fc) = User.id (user c).
Proof.
  unfold _formatComments. intros Hin.
  apply list_elem_of_fmap in Hin as (cm & -> & _). simpl.
  rewrite orb_true_iff, bool_decide_eq_true. done.
Qed.

End Projection.

(** A reference whose title finds an entry renders as a resolved link; the
    search runs over the collection it is given and does not look at
    [hidden]. *)
Lemma render_link_found (es : list Entry.t) (rawTitle : string) (e : Entry.t) :
  List.find (λ x, bool_decide (Js.toLowerCase (Entry.title x)
                               = Js.toLowerCase (Js.trim rawTitle))) es = Some e →
  render_link es rawTitle = link_resolved (Entry.id e) (Js.trim rawTitle).
Proof. intros H. unfold render_link. by rewrite H. Qed.

(** C3 (the script departs from it).  Bob, a Player, views the tavern
    entry, whose text refers to the hidden vault entry.  The hidden entry is
    absent from his list, but the reference is rendered as a resolved link
    carrying the hidden entry's id, exactly as for the GM: both revisions
    pass the unfiltered collection to [processEntryLinks]. *)
Theorem hidden_link_resolves_for_player :
  Entry.hidden Sample.vault = true ∧
  User.isGM (user Sample.of_bob) = false ∧
  entry <$> Context.entries
    (_prepareContext Sample.enrich Sample.show_date Sample.of_bob Sample.window).1
    = [Sample.tavern] ∧
  Context.enrichedContent
    (_prepareContext Sample.enrich Sample.show_date Sample.of_bob Sample.window).1
    = Some ("<p>See " +:+ link_resolved "entry_2" "the vault" +:+ " below.</p>") ∧
  Context.enrichedContent <$>
    (_prepareContext_v1 Sample.enrich Sample.show_date Sample.of_bob Sample.window).1
    = Some (Some ("<p>See " +:+ link_resolved "entry_2" "the vault" +:+ " below.</p>")) ∧
  Context.enrichedContent
    (_prepareContext Sample.enrich Sample.show_date Sample.of_gm Sample.window).1
    = Some ("<p>See " +:+ link_resolved "entry_2" "the vault" +:+ " below.</p>").
Proof. vm_compute. done. Qed.

(** C4 (the script departs from it).  In Bob's context the top-level
    [gmNotes] is [null], but the selected entry object and the entry of the
    sidebar list are the stored object, [gmNotes] key included. *)
Theorem player_context_carries_gmNotes :
  User.isGM (user Sample.of_bob) = false ∧
  Context.gmNotes
    (_prepareContext Sample.enrich Sample.show_date Sample.of_bob Sample.window).1
    = None ∧
  Entry.gmNotes <$> Context.current
    (_prepareContext Sample.enrich Sample.show_date Sample.of_bob Sample.window).1
    = Some (Some "The innkeeper is a spy.") ∧
  (Entry.gmNotes ∘ entry) <$> Context.entries
    (_prepareContext Sample.enrich Sample.show_date Sample.of_bob Sample.window).1
    = [Some "The innkeeper is a spy."] ∧
  (λ ctx, Entry.gmNotes <$> Context.current ctx) <$>
    (_prepareContext_v1 Sample.enrich Sample.show_date Sample.of_bob Sample.window).1
    = Some (Some (Some "The innkeeper is a spy.")).
Proof. vm_compute. done. Qed.

(** ** GM-only mutations and comment deletion *)

(** X15. The hide toggle checks the role and does nothing for a non-GM. *)
Lemma toggle_hidden_rejects_non_gm (app : App) (c : Client) :
  User.isGM (user c) = false → _onClickToggleHidden app c = c.
Proof.
  intros Hp. unfold _onClickToggleHidden.
  destruct (selected app); [|done]. by rewrite Hp.
Qed.

Lemma saveEntries_relayed (E : list Entry.t) (c : Client) (g : User.t) :
  User.isGM (user c) = false → activeGM c = Some g →
  saveEntries E c = (true, emit (requestSave E) c).
Proof. intros Hp Hg. unfold saveEntries. by rewrite Hp, Hg. Qed.

(** The permanent delete has no such check: with a GM connected, the
    collection without the selected entry is relayed for any Player. *)
Lemma gm_delete_relayed_for_player (app : App) (c : Client) (id : string) (g : User.t) :
  User.isGM (user c) = false → activeGM c = Some g → selected app = Some id →
  _onClickGmDelete true app c =
  (clear_selection app,
   emit (requestSave
           (List.filter (λ en, negb (bool_decide (Entry.id en = id))) (getEntries c)))
        c).
Proof.
  intros Hp Hg Hsel. unfold _onClickGmDelete. rewrite Hsel.
  by rewrite (saveEntries_relayed _ _ g).
Qed.

(** C5 (the script departs from it).  Bob, a Player, triggers both GM-only
    actions on the selected tavern entry while a GM is connected.  The hide
    toggle is rejected; the permanent delete is not: the collection without
    the entry is sent as a [requestSave], and the GM's handler stores it. *)
Theorem player_delete_reaches_store :
  User.isGM (user Sample.of_bob) = false ∧
  _onClickToggleHidden Sample.window Sample.of_bob = Sample.of_bob ∧
  _onClickGmDelete true Sample.window Sample.of_bob =
    (clear_selection Sample.window,
     emit (requestSave [Sample.vault]) Sample.of_bob) ∧
  getEntries Sample.of_gm = [Sample.tavern; Sample.vault] ∧
  getEntries (onSocket (requestSave [Sample.vault]) Sample.of_gm) = [Sample.vault].
Proof. vm_compute. done. Qed.

(** [_deleteComment] looks at the comment id only: for any Player with a GM
    connected the collection without that comment is relayed. *)
Lemma deleteComment_relayed_for_player (app : App) (c : Client) (id cid : string)
    (g : User.t) (idx : nat) (en : Entry.t) :
  User.isGM (user c) = false → activeGM c = Some g → selected app = Some id →
  findIndex id (getEntries c) = Some (idx, en) →
  _deleteComment cid app c =
  emit (requestSave
          (<[idx := Entry.with_comments
                      (List.filter (λ cm, negb (bool_decide (Comment.id cm = cid)))
                                   (default [] (Entry.comments en))) en]>
             (getEntries c)))
       c.
Proof.
  intros Hp Hg Hsel Hidx. unfold _deleteComment. rewrite Hsel, Hidx.
  by rewrite (saveEntries_relayed _ _ g).
Qed.

(** C6 (the script departs from it).  The comment on the tavern entry was
    written by Alice.  In Bob's context its [canDelete] flag is [false], yet
    [_deleteComment] invoked by Bob relays the collection without the
    comment, and the GM's handler stores it. *)
Theorem other_player_deletes_comment :
  Comment.userId Sample.note = User.id Sample.alice ∧
  User.id (user Sample.of_bob) ≠ User.id Sample.alice ∧
  User.isGM (user Sample.of_bob) = false ∧
  canDelete <$> Context.formattedComments
    (_prepareContext Sample.enrich Sample.show_date Sample.of_bob Sample.window).1
    = [false] ∧
  _deleteComment (Comment.id Sample.note) Sample.window Sample.of_bob =
    emit (requestSave [Entry.with_comments [] Sample.tavern; Sample.vault])
         Sample.of_bob ∧
  getEntries
    (onSocket (requestSave [Entry.with_comments [] Sample.tavern; Sample.vault])
              Sample.of_gm)
    = [Entry.with_comments [] Sample.tavern; Sample.vault].
Proof. vm_compute. repeat split; done. Qed.

(** ** Category settings *)

Lemma truthy_false (s : string) : Js.truthy s = false ↔ s = "".
Proof. by destruct s. Qed.

Lemma unnamed_spec (k : Category.t) :
  unnamed k = true ↔ Js.trim (Category.label k) = "".
Proof. unfold unnamed. rewrite negb_true_iff. apply truthy_false. Qed.

Lemma sync_row_ids (w : list Category.t) (row : Row) :
  Category.id <$> sync_row w row = Category.id <$> w.
Proof.
  unfold sync_row.
  destruct (list_find _ w) as [[i k]|] eqn:Hfind; [|done].
  apply list_find_Some in Hfind as (Hi & _ & _).
  rewrite list_fmap_insert. apply list_insert_id.
  rewrite list_lookup_fmap, Hi. simpl. f_equal.
  destruct (label_input row), (icon_input row); simpl;
    repeat case_match; done.
Qed.

Lemma syncFromDOM_ids (rows : list Row) (w : list Category.t) :
  Category.id <$> _syncFromDOM rows w = Category.id <$> w.
Proof.
  unfold _syncFromDOM. revert w.
  induction rows as [|row rows IH]; intros w; simpl; [done|].
  by rewrite IH, sync_row_ids.
Qed.

Lemma syncFromDOM_length (rows : list Row) (w : list Category.t) :
  length (_syncFromDOM rows w) = length w.
Proof.
  rewrite <- (length_fmap Category.id (_syncFromDOM rows w)), syncFromDOM_ids.
  apply length_fmap.
Qed.

Lemma save_empty (rows : list Row) (w : list Category.t) (c : Client) :
  w = [] →
  _save rows w c =
  ([], notify (warn "Adventurer Wiki: You must keep at least one category.") c, false).
Proof.
  intros ->. unfold _save.
  assert (_syncFromDOM rows [] = []) as ->; [|done].
  apply nil_length_inv. by rewrite syncFromDOM_length.
Qed.

Lemma save_unnamed (rows : list Row) (w : list Category.t) (c : Client) (k : Category.t) :
  k ∈ _syncFromDOM rows w → Js.trim (Category.label k) = "" →
  ∃ msg, _save rows w c = (_syncFromDOM rows w, notify (warn msg) c, false).
Proof.
  intros Hin Hk. unfold _save. case_bool_decide; [by eexists|].
  assert (existsb unnamed (_syncFromDOM rows w) = true) as ->; [|by eexists].
  apply List.existsb_exists. exists k. split.
  - by apply list_elem_of_In.
  - by apply unnamed_spec.
Qed.

(** The accessor never returns an empty category set. *)
Lemma getCategories_nonempty (c : Client) : getCategories c ≠ [].
Proof. unfold getCategories. by destruct (wikiCategories c). Qed.

(** C9. A save of the category settings with an empty working set, or with
    a category whose label is empty (or blank) in the working set as [_save]
    reads it, is rejected before any write: the window stays open, a warning
    is shown, nothing is sent, and the stored categories are the ones stored
    before, so a non-empty stored set stays non-empty. *)
Theorem category_save_rejected (rows : list Row) (working : list Category.t) (c : Client) :
  working = [] ∨
  (∃ k, k ∈ _syncFromDOM rows working ∧ Js.trim (Category.label k) = "") →
  (_save rows working c).2 = false ∧
  wikiCategories (_save rows working c).1.2 = wikiCategories c ∧
  getCategories (_save rows working c).1.2 = getCategories c ∧
  sent (_save rows working c).1.2 = sent c ∧
  (∃ msg, notifications (_save rows working c).1.2 = notifications c ++ [warn msg]) ∧
  (wikiCategories c ≠ [] → wikiCategories (_save rows working c).1.2 ≠ []) ∧
  getCategories (_save rows working c).1.2 ≠ [].
Proof.
  intros [Hempty | (k & Hin & Hk)].
  - rewrite (save_empty rows working c Hempty). simpl.
    eauto 10 using getCategories_nonempty.
  - destruct (save_unnamed rows working c k Hin Hk) as [msg ->]. simpl.
    eauto 10 using getCategories_nonempty.
Qed.

(** Removing the last remaining category and saving: the working set is
    empty, so the stored categories stay as they were. *)
Lemma delete_last_category_then_save (rows rows' : list Row) (k : Category.t) (c : Client) :
  wikiCategories
    (_save rows' (delete_category true (Category.id k) rows [k]) c).1.2
  = wikiCategories c.
Proof.
  assert (delete_category true (Category.id k) rows [k] = []) as Hnil.
  { unfold delete_category.
    pose proof (syncFromDOM_ids rows [k]) as Hids.
    destruct (_syncFromDOM rows [k]) as [|k' [|? ?]]; simplify_eq/=.
    by rewrite bool_decide_eq_true_2. }
  by rewrite (save_empty rows' _ c Hnil).
Qed.

(** X30. Whatever the inputs, [_save] either leaves the stored categories alone
    or stores a non-empty set whose labels are all non-blank. *)
Lemma save_stores_valid_categories (rows : list Row) (working : list Category.t)
    (c : Client) :
  wikiCategories (_save rows working c).1.2 = wikiCategories c ∨
  (wikiCategories (_save rows working c).1.2 = _syncFromDOM rows working ∧
   _syncFromDOM rows working ≠ [] ∧
   ∀ k, k ∈ _syncFromDOM rows working → Js.trim (Category.label k) ≠ "").
Proof.
  unfold _save, set_categories_setting. case_bool_decide as Hlen; [by left|].
  destruct (existsb unnamed _) eqn:Hex; [by left|].
  destruct (User.isGM (user c)); [|by left]. right. simpl.
  split; [done|]. split.
  - intros Hnil. by rewrite Hnil in Hlen.
  - intros k Hin Hk. apply not_true_iff_false in Hex. apply Hex.
    apply List.existsb_exists. exists k. split.
    + by apply list_elem_of_In.
    + by apply unnamed_spec.
Qed.

(** ** Saving through the entry editor *)

Lemma edited_entries_update (c : Client) (ed : Editor) (f : Form) (title : string)
    (now : Z) (newId id : string) (idx : nat) (old : Entry.t) :
  editor_entry_id ed = Some id →
  findIndex id (getEntries c) = Some (idx, old) →
  edited_entries c ed f title now newId
  = <[idx := updated_entry c ed f title now old]> (getEntries c).
Proof. intros Hid Hidx. unfold edited_entries. by rewrite Hid, Hidx. Qed.

(** With a valid title and a GM connected, a Player's [_handleSave] relays
    the edited collection and closes the editor. *)
Lemma handleSave_relayed (c : Client) (ed : Editor) (f : Form) (title : string)
    (now : Z) (newId : string) (g : User.t) :
  User.isGM (user c) = false → activeGM c = Some g →
  Js.trim <$> fd_title f = Some title → Js.truthy title = true →
  (_handleSave f now newId ed c).2 = true ∧
  ∃ rest,
    sent (_handleSave f now newId ed c).1.2
    = sent c ++ requestSave (edited_entries c ed f title now newId) :: rest.
Proof.
  intros Hp Hg Ht Htruthy. unfold _handleSave. rewrite Ht, Htruthy.
  rewrite (saveEntries_relayed _ _ g Hp Hg).
  unfold _broadcastEditingStop.
  destruct (_broadcastedStart ed), (editor_entry_id ed); simpl;
    (split; [done|]); [rewrite <- app_assoc|..]; eauto.
Qed.

(** X19. Without a connected GM the Player's editor stays open and nothing is
    stored or sent. *)
Lemma handleSave_blocked (c : Client) (ed : Editor) (f : Form) (now : Z) (newId : string) :
  User.isGM (user c) = false → activeGM c = None →
  (_handleSave f now newId ed c).2 = false ∧
  (_handleSave f now newId ed c).1.1 = ed ∧
  wikiEntries (_handleSave f now newId ed c).1.2 = wikiEntries c ∧
  sent (_handleSave f now newId ed c).1.2 = sent c.
Proof.
  intros Hp Hg. unfold _handleSave, saveEntries. rewrite Hp, Hg.
  destruct (Js.trim <$> fd_title f) as [t|]; [destruct (Js.truthy t)|]; done.
Qed.

(** The collections the script writes keep every [comments] key. *)
Lemma comments_present_insert (es : list Entry.t) (i : nat) (e : Entry.t) :
  comments_present es → is_Some (Entry.comments e) →
  comments_present (<[i := e]> es).
Proof.
  unfold comments_present. intros Hes He x Hx.
  apply list_elem_of_lookup in Hx as [j Hj].
  destruct (decide (i = j)) as [->|Hij].
  - destruct (decide (j < length es)) as [Hlt|Hge].
    + rewrite list_lookup_insert_eq in Hj by done. by simplify_eq.
    + rewrite list_insert_ge in Hj by lia. apply Hes. by eapply list_elem_of_lookup_2.
  - rewrite list_lookup_insert_ne in Hj by done.
    apply Hes. by eapply list_elem_of_lookup_2.
Qed.

Lemma comments_present_filter (p : Entry.t → bool) (es : list Entry.t) :
  comments_present es → comments_present (List.filter p es).
Proof.
  unfold comments_present. intros Hes x Hx. apply Hes.
  apply list_elem_of_In in Hx. apply List.filter_In in Hx as [Hx _].
  by apply list_elem_of_In.
Qed.

Lemma comments_present_flag (id : string) (p : bool) (es : list Entry.t) :
  comments_present es → comments_present (flag_entry id p es).
Proof.
  unfold comments_present. intros Hes x Hx. unfold flag_entry in Hx.
  apply list_elem_of_fmap in Hx as (y & -> & Hy).
  destruct (decide (Entry.id y = id)); simpl; by apply Hes.
Qed.

Lemma comments_present_found (id : string) (es : list Entry.t) (idx : nat) (e : Entry.t) :
  comments_present es → findIndex id es = Some (idx, e) → is_Some (Entry.comments e).
Proof.
  unfold comments_present. intros Hes Hidx.
  apply list_find_Some in Hidx as (Hlook & _ & _).
  apply Hes. by eapply list_elem_of_lookup_2.
Qed.

Lemma comments_present_edited (c : Client) (ed : Editor) (f : Form) (title : string)
    (now : Z) (newId : string) :
  comments_present (getEntries c) →
  comments_present (edited_entries c ed f title now newId).
Proof.
  intros Hes. unfold edited_entries.
  destruct (editor_entry_id ed) as [id|].
  - destruct (findIndex id (getEntries c)) as [[idx old]|]; [|done].
    by apply comments_present_insert.
  - unfold comments_present in *. intros x [Hx|Hx]%elem_of_app; [by apply Hes|].
    apply list_elem_of_singleton in Hx as ->. done.
Qed.

Lemma saveEntries_writes_comments (E : list Entry.t) (c : Client) :
  comments_present (getEntries c) → comments_present E →
  writes_comments c (saveEntries E c).2.
Proof.
  intros Hes HE. unfold writes_comments, saveEntries.
  destruct (User.isGM (user c)); simpl.
  - split; [done|]. intros es [Hin|Hin]%elem_of_app; [by left|].
    by apply list_elem_of_singleton in Hin.
  - destruct (activeGM c); simpl.
    + split; [done|]. intros es [Hin|Hin]%elem_of_app; [by left|].
      apply list_elem_of_singleton in Hin. right. by simplify_eq.
    + split; [done|]. intros es Hin. by left.
Qed.

Lemma writes_comments_refl (c : Client) :
  comments_present (getEntries c) → writes_comments c c.
Proof. intros Hes. split; [done|]. intros es Hin. by left. Qed.

(** Every handler that writes entries leaves the store, and what it sends
    for the GM to store, with every [comments] key in place. *)
Lemma handlers_write_comments (c : Client) (app : App) (ok : bool)
    (text : option string) (newId cid : string) (now : Z) (ed : Editor) (f : Form) :
  comments_present (getEntries c) →
  writes_comments c (_onClickToggleHidden app c) ∧
  writes_comments c (_onClickRequestDelete ok app c) ∧
  writes_comments c (_onClickCancelDelete app c) ∧
  writes_comments c (_onClickGmDelete ok app c).2 ∧
  writes_comments c (_submitComment text newId now app c) ∧
  writes_comments c (_deleteComment cid app c) ∧
  writes_comments c (_handleSave f now newId ed c).1.2.
Proof.
  intros Hes.
  pose proof (writes_comments_refl c Hes) as Hrefl.
  repeat split_and.
  - unfold _onClickToggleHidden. destruct (selected app) as [id|]; [|done].
    destruct (negb _); [done|].
    destruct (findIndex id (getEntries c)) as [[idx en]|] eqn:Hidx; [|done].
    apply saveEntries_writes_comments; [done|].
    apply comments_present_insert; [done|]. simpl.
    by eapply comments_present_found.
  - unfold _onClickRequestDelete. destruct (selected app) as [id|]; [|done].
    destruct ok; [|done].
    by apply saveEntries_writes_comments, comments_present_flag.
  - unfold _onClickCancelDelete. destruct (selected app) as [id|]; [|done].
    by apply saveEntries_writes_comments, comments_present_flag.
  - unfold _onClickGmDelete. destruct (selected app) as [id|]; [|done].
    destruct ok; [|done]. simpl.
    by apply saveEntries_writes_comments, comments_present_filter.
  - unfold _submitComment. destruct (selected app) as [id|]; [|done].
    destruct (Js.trim <$> text) as [txt|]; [|done].
    destruct (negb _); [done|].
    destruct (findIndex id (getEntries c)) as [[idx en]|]; [|done].
    apply saveEntries_writes_comments; [done|].
    by apply comments_present_insert.
  - unfold _deleteComment. destruct (selected app) as [id|]; [|done].
    destruct (findIndex id (getEntries c)) as [[idx en]|]; [|done].
    apply saveEntries_writes_comments; [done|].
    by apply comments_present_insert.
  - unfold _handleSave.
    destruct (Js.trim <$> fd_title f) as [title|]; [|done].
    destruct (Js.truthy title); [|done].
    pose proof (saveEntries_writes_comments _ c Hes
                  (comments_present_edited c ed f title now newId Hes)) as Hw.
    destruct (saveEntries _ c) as [[] c1]; [|done].
    unfold _broadcastEditingStop.
    destruct (_broadcastedStart ed), (editor_entry_id ed); try done.
    destruct Hw as [Hstore Hsent]. split; [done|].
    intros es [Hin|Hin]%elem_of_app; [by apply Hsent|].
    by apply list_elem_of_singleton in Hin.
Qed.

(** So does the replica that handles a message whose collection, if it
    carries one, is in that form. *)
Lemma onSocket_writes_comments (m : Message) (c : Client) :
  comments_present (getEntries c) →
  (∀ es, m = requestSave es → comments_present es) →
  comments_present (getEntries (onSocket m c)).
Proof.
  intros Hes Hm. destruct m as [es| | | |]; try done.
  - unfold onSocket. destruct (User.isGM (user c)); [|done]. simpl. by apply Hm.
  - unfold onSocket. simpl. by destruct (_ !! _) as [[]|]; [case_decide|].
Qed.

(** C10.  A Player saves an existing entry through the editor while a GM
    is connected; the stored entry has its [comments] key, as every entry
    the script writes.  In the relayed collection the entry's [hidden],
    [gmNotes] and [comments] are equal to their values before the save.
    The saved entry is the stored one with only [title], [category],
    [content], [updatedAt] and [updatedBy] rewritten and [pendingDelete]
    set to [false]; every other entry of the collection is untouched. *)
Theorem player_save_keeps_gm_fields (c : Client) (ed : Editor) (f : Form)
    (title : string) (now : Z) (newId : string) (g : User.t) (idx : nat)
    (old : Entry.t) :
  User.isGM (user c) = false →
  activeGM c = Some g →
  Js.trim <$> fd_title f = Some title →
  Js.truthy title = true →
  editor_entry_id ed = Some (Entry.id old) →
  findIndex (Entry.id old) (getEntries c) = Some (idx, old) →
  is_Some (Entry.comments old) →
  ∃ saved new rest,
    sent (_handleSave f now newId ed c).1.2 = sent c ++ requestSave saved :: rest ∧
    saved !! idx = Some new ∧
    Entry.hidden new = Entry.hidden old ∧
    Entry.gmNotes new = Entry.gmNotes old ∧
    Entry.comments new = Entry.comments old ∧
    new = Entry.mk (Entry.id old) title (fd_category f) (form_content f)
            (Entry.hidden old) false (Entry.createdAt old) now
            (Entry.createdBy old) (User.name (user c))
            (Entry.gmNotes old) (Entry.comments old) ∧
    length saved = length (getEntries c) ∧
    (∀ j, j ≠ idx → saved !! j = getEntries c !! j).
Proof.
  intros Hp Hg Ht Htruthy Hid Hidx [cs Hcs].
  destruct (handleSave_relayed c ed f title now newId g Hp Hg Ht Htruthy)
    as [_ [rest Hsent]].
  rewrite (edited_entries_update c ed f title now newId _ idx old Hid Hidx) in Hsent.
  apply list_find_Some in Hidx as (Hlook & _ & _).
  exists (<[idx := updated_entry c ed f title now old]> (getEntries c)),
         (updated_entry c ed f title now old), rest.
  split; [done|]. split.
  { apply list_lookup_insert_eq. by eapply lookup_lt_Some. }
  unfold updated_entry. rewrite Hp, Hcs. simpl.
  repeat split; try done.
  - by rewrite length_insert.
  - intros j Hj. by apply list_lookup_insert_ne.
Qed.

(** ** The theorems at the sample world *)

Lemma saveEntries_blocked_witness :
  User.isGM (user Sample.of_bob_alone) = false ∧
  (∀ u, u ∈ users Sample.of_bob_alone →
        ¬ (User.isGM u = true ∧ User.active u = true)) ∧
  (saveEntries [Sample.vault] Sample.of_bob_alone).1 = false ∧
  notifications (saveEntries [Sample.vault] Sample.of_bob_alone).2
    = notifications Sample.of_bob_alone ++ [warn no_gm_warning] ∧
  getEntries (saveEntries [Sample.vault] Sample.of_bob_alone).2
    = getEntries Sample.of_bob_alone ∧
  wikiEntries (saveEntries [Sample.vault] Sample.of_bob_alone).2
    = wikiEntries Sample.of_bob_alone ∧
  sent (saveEntries [Sample.vault] Sample.of_bob_alone).2 = sent Sample.of_bob_alone.
Proof.
  split; [reflexivity|]. split; [apply activeGM_None; reflexivity|].
  apply (saveEntries_blocked [Sample.vault] Sample.of_bob_alone).
  - reflexivity.
  - apply activeGM_None. reflexivity.
Defined.

Lemma saveEntries_gm_commit_witness :
  User.isGM (user Sample.of_gm) = true ∧
  (saveEntries [Sample.vault] Sample.of_gm).1 = true ∧
  getEntries (saveEntries [Sample.vault] Sample.of_gm).2 = [Sample.vault] ∧
  sent (saveEntries [Sample.vault] Sample.of_gm).2 = sent Sample.of_gm ++ [refresh].
Proof.
  split; [reflexivity|].
  apply (saveEntries_gm_commit [Sample.vault] Sample.of_gm). reflexivity.
Defined.

Lemma lock_lifecycle_witness :
  "u-alice" ≠ "u-bob" ∧
  activeEditors
    (onSocket (editingStop "entry_1" "u-alice")
       (onSocket (editingStart "entry_1" "Alice" "u-alice") Sample.of_gm)) !! "entry_1"
    = None ∧
  activeEditors
    (onSocket (editingStop "entry_1" "u-bob")
       (onSocket (editingStart "entry_1" "Alice" "u-alice") Sample.of_gm)) !! "entry_1"
    = Some (mkSession "Alice" "u-alice").
Proof.
  split; [discriminate|].
  apply (lock_lifecycle Sample.of_gm "entry_1" "Alice" "u-alice" "u-bob").
  discriminate.
Defined.

Lemma category_save_rejected_witness :
  Sample.last_removed = [] ∧
  (_save Sample.rows Sample.last_removed Sample.of_gm).2 = false ∧
  wikiCategories (_save Sample.rows Sample.last_removed Sample.of_gm).1.2
    = wikiCategories Sample.of_gm ∧
  getCategories (_save Sample.rows Sample.last_removed Sample.of_gm).1.2
    = getCategories Sample.of_gm ∧
  sent (_save Sample.rows Sample.last_removed Sample.of_gm).1.2 = sent Sample.of_gm ∧
  (∃ msg, notifications (_save Sample.rows Sample.last_removed Sample.of_gm).1.2
          = notifications Sample.of_gm ++ [warn msg]) ∧
  (wikiCategories Sample.of_gm ≠ [] →
   wikiCategories (_save Sample.rows Sample.last_removed Sample.of_gm).1.2 ≠ []) ∧
  getCategories (_save Sample.rows Sample.last_removed Sample.of_gm).1.2 ≠ [].
Proof.
  split; [reflexivity|].
  apply (category_save_rejected Sample.rows Sample.last_removed Sample.of_gm).
  left. reflexivity.
Defined.

Lemma player_save_keeps_gm_fields_witness :
  User.isGM (user Sample.of_bob) = false ∧
  activeGM Sample.of_bob = Some Sample.gm ∧
  Js.trim <$> fd_title Sample.form = Some "Old Road" ∧
  Js.truthy "Old Road" = true ∧
  editor_entry_id Sample.editor = Some (Entry.id Sample.tavern) ∧
  findIndex (Entry.id Sample.tavern) (getEntries Sample.of_bob) = Some (0, Sample.tavern) ∧
  is_Some (Entry.comments Sample.tavern) ∧
  ∃ saved new rest,
    sent (_handleSave Sample.form 99%Z "entry_9" Sample.editor Sample.of_bob).1.2
    = sent Sample.of_bob ++ requestSave saved :: rest ∧
    saved !! 0 = Some new ∧
    Entry.hidden new = Entry.hidden Sample.tavern ∧
    Entry.gmNotes new = Entry.gmNotes Sample.tavern ∧
    Entry.comments new = Entry.comments Sample.tavern ∧
    new = Entry.mk (Entry.id Sample.tavern) "Old Road" (fd_category Sample.form)
            (form_content Sample.form) (Entry.hidden Sample.tavern) false
            (Entry.createdAt Sample.tavern) 99%Z (Entry.createdBy Sample.tavern)
            (User.name (user Sample.of_bob)) (Entry.gmNotes Sample.tavern)
            (Entry.comments Sample.tavern) ∧
    length saved = length (getEntries Sample.of_bob) ∧
    (∀ j, j ≠ 0 → saved !! j = getEntries Sample.of_bob !! j).
Proof.
  do 6 (split; [reflexivity|]). split; [by eexists|].
  apply (player_save_keeps_gm_fields Sample.of_bob Sample.editor Sample.form
           "Old Road" 99%Z "entry_9" Sample.gm 0 Sample.tavern);
    first [reflexivity | by eexists].
Defined.

(** * Further properties of the script *)

(** ** Relay, replicas and the no-GM banner *)

(** X1. A Player's save with a GM connected stores nothing locally and sends
    one [requestSave] carrying the collection; the GM replica that handles
    the message stores exactly that collection and answers with one
    [refresh]. *)
Theorem relay_round_trip (E : list Entry.t) (player gmc : Client) (g : User.t) :
  User.isGM (user player) = false →
  activeGM player = Some g →
  User.isGM (user gmc) = true →
  ∃ m,
    (saveEntries E player).1 = true ∧
    sent (saveEntries E player).2 = sent player ++ [m] ∧
    wikiEntries (saveEntries E player).2 = wikiEntries player ∧
    getEntries (onSocket m gmc) = E ∧
    sent (onSocket m gmc) = sent gmc ++ [refresh].
Proof.
  intros Hp Hg Hgm. exists (requestSave E).
  rewrite (saveEntries_relayed E player g Hp Hg). simpl.
  rewrite Hgm. done.
Qed.

(** X2. Whatever message arrives, the socket handler of a non-GM client
    writes no setting, sends nothing and shows no notification. *)
Theorem player_replica_never_writes (m : Message) (c : Client) :
  User.isGM (user c) = false →
  wikiEntries (onSocket m c) = wikiEntries c ∧
  wikiCategories (onSocket m c) = wikiCategories c ∧
  sent (onSocket m c) = sent c ∧
  notifications (onSocket m c) = notifications c.
Proof.
  intros Hp. destruct m as [E| | |X n u|X u]; simpl.
  - by rewrite Hp.
  - done.
  - done.
  - done.
  - destruct (activeEditors c !! X) as [cur|]; [|done].
    by destruct (decide (userId cur = u)).
Qed.

Section Banner.

Context (enrichHTML : string → string) (toLocaleString : Z → string).

(** X3. The [gmOnline] flag of the context, which drives the no-GM banner,
    is the result [saveEntries] would return for this client: the banner is
    shown exactly when a save would be blocked. *)
Theorem gmOnline_is_save_result (c : Client) (app : App) (E : list Entry.t) :
  Context.gmOnline (_prepareContext enrichHTML toLocaleString c app).1
  = (saveEntries E c).1.
Proof.
  unfold _prepareContext, assemble, saveEntries. cbn [fst Context.gmOnline].
  destruct (User.isGM (user c)); [done|].
  by destruct (activeGM c) as [g|].
Qed.

End Banner.

(** ** The editor's lock, from opening to closing *)

(** X4. An editor opened on an existing entry and closed again: the two
    messages go out in order, the flag is back to [false], the entry is
    unlocked on the sender, every other lock of the sender is as before, and
    a replica that handles both messages holds no lock for the entry. *)
Theorem editor_open_close (e : Entry.t) (c replica : Client) :
  Js.truthy (Entry.id e) = true →
  (_broadcastEditingStop
     (_onRender (mkEditor (existing e) false) c).1
     (_onRender (mkEditor (existing e) false) c).2).1
    = mkEditor (existing e) false ∧
  sent (_broadcastEditingStop
          (_onRender (mkEditor (existing e) false) c).1
          (_onRender (mkEditor (existing e) false) c).2).2
    = sent c ++ [editingStart (Entry.id e) (User.name (user c)) (User.id (user c));
                 editingStop (Entry.id e) (User.id (user c))] ∧
  (∀ k, activeEditors
          (_broadcastEditingStop
             (_onRender (mkEditor (existing e) false) c).1
             (_onRender (mkEditor (existing e) false) c).2).2 !! k
        = if decide (k = Entry.id e) then None else activeEditors c !! k) ∧
  activeEditors
    (onSocket (editingStop (Entry.id e) (User.id (user c)))
       (onSocket (editingStart (Entry.id e) (User.name (user c)) (User.id (user c)))
          replica)) !! Entry.id e = None.
Proof.
  intros Hid.
  unfold _onRender, _broadcastEditingStop, editor_entry_id. simpl.
  rewrite Hid. simpl. rewrite Hid. simpl.
  split; [done|]. split; [by rewrite <- app_assoc|]. split.
  - intros k. destruct (decide (k = Entry.id e)) as [->|Hk].
    + apply lookup_delete_eq.
    + rewrite lookup_delete_ne by done. by rewrite lookup_insert_ne.
  - rewrite lookup_insert_eq. simpl. rewrite decide_True by done. simpl.
    apply lookup_delete_eq.
Qed.

(** The lock is announced once per editor window: a second render of
    the editor changes neither the editor nor the client. *)
Theorem onRender_announces_once (ed : Editor) (c : Client) :
  _onRender (_onRender ed c).1 (_onRender ed c).2 = _onRender ed c.
Proof.
  unfold _onRender.
  destruct (_broadcastedStart ed) eqn:Hflag, (editor_entry_id ed) eqn:Hid;
    simpl; rewrite ?Hflag, ?Hid; done.
Qed.

(** The editor of the new-entry button never takes or releases a lock:
    rendering it and closing it leave the client as it is. *)
Theorem new_entry_editor_takes_no_lock (app : App) (c : Client) :
  _onRender (_onClickNew app) c = (_onClickNew app, c) ∧
  _broadcastEditingStop (_onClickNew app) c = (_onClickNew app, c) ∧
  ∀ flag cat, _broadcastEditingStop (mkEditor (stub cat) flag) c
              = (mkEditor (stub cat) flag, c).
Proof.
  repeat split. intros flag cat. by destruct flag.
Qed.

(** ** The view state across renders *)

Lemma validate_activeCat_keeps (cats : list Category.t) (app : App) :
  _selectedEntry (validate_activeCat cats app) = _selectedEntry app ∧
  _searchQuery (validate_activeCat cats app) = _searchQuery app.
Proof. unfold validate_activeCat. by destruct (List.find _ cats). Qed.

Lemma validate_selection_keeps (es : list Entry.t) (isGM : bool) (app : App) :
  _activeCat (validate_selection es isGM app) = _activeCat app ∧
  _searchQuery (validate_selection es isGM app) = _searchQuery app.
Proof.
  unfold validate_selection. destruct (selected app); [|done].
  destruct (find_entry _ es) as [sel|]; [|done].
  by destruct (Entry.hidden sel && negb isGM).
Qed.

Lemma validate_activeCat_valid (cats : list Category.t) (app : App) :
  cats ≠ [] →
  ∃ k, k ∈ cats ∧ _activeCat (validate_activeCat cats app) = Some (Category.id k).
Proof.
  intros Hne. unfold validate_activeCat.
  destruct (List.find _ cats) as [k|] eqn:Hfind.
  - apply List.find_some in Hfind as [Hin Hk].
    apply bool_decide_eq_true in Hk. exists k. split; [|done].
    by apply list_elem_of_In.
  - destruct cats as [|k cats]; [done|]. exists k. split; [by left|done].
Qed.

Lemma validate_activeCat_idem (cats : list Category.t) (app : App) :
  validate_activeCat cats (validate_activeCat cats app) = validate_activeCat cats app.
Proof.
  remember (validate_activeCat cats app) as app1 eqn:H1.
  unfold validate_activeCat in H1.
  destruct (List.find _ cats) as [k|] eqn:Hfind; subst app1.
  - unfold validate_activeCat. by rewrite Hfind.
  - unfold validate_activeCat. simpl.
    destruct cats as [|k cats]; [done|]. simpl.
    by rewrite bool_decide_eq_true_2.
Qed.

Lemma validate_selection_idem (es : list Entry.t) (isGM : bool) (app : App) :
  validate_selection es isGM (validate_selection es isGM app)
  = validate_selection es isGM app.
Proof.
  remember (validate_selection es isGM app) as app1 eqn:H1.
  unfold validate_selection in H1.
  destruct (selected app) as [id|] eqn:Hsel.
  - destruct (find_entry id es) as [sel|] eqn:Hfind; [|by subst app1].
    destruct (Entry.hidden sel && negb isGM) eqn:Hh; subst app1; [done|].
    unfold validate_selection. by rewrite Hsel, Hfind, Hh.
  - subst app1. unfold validate_selection. by rewrite Hsel.
Qed.

(** The two checks touch different fields of the view state. *)
Lemma validate_commute (cats : list Category.t) (es : list Entry.t) (isGM : bool)
    (app : App) :
  validate_activeCat cats (validate_selection es isGM app)
  = validate_selection es isGM (validate_activeCat cats app).
Proof.
  destruct app as [ac se q].
  unfold validate_activeCat, validate_selection, selected. simpl.
  destruct (List.find (λ c, bool_decide (Some (Category.id c) = ac)) cats) eqn:Hf;
    simpl;
    (destruct se as [s|]; simpl; [|by rewrite ?Hf]);
    (destruct (Js.truthy s) eqn:Ht; simpl; [|by rewrite ?Hf]);
    (destruct (find_entry s es) as [sel|] eqn:He; simpl; [|by rewrite ?Hf]);
    destruct (Entry.hidden sel && negb isGM); simpl; by rewrite ?Hf.
Qed.

Lemma filterEntries_view (a b : App) (es : list Entry.t) (isGM : bool) :
  _activeCat a = _activeCat b → _searchQuery a = _searchQuery b →
  _filterEntries a es isGM = _filterEntries b es isGM.
Proof.
  intros Hc Hq. unfold _filterEntries, visible_in_list. by rewrite Hc, Hq.
Qed.

(** A selection that names a stored entry visible to the user passes
    both checks. *)
Lemma selected_validated (cats : list Category.t) (es : list Entry.t) (isGM : bool)
    (app : App) (id : string) (e : Entry.t) :
  selected app = Some id → find_entry id es = Some e →
  Entry.hidden e && negb isGM = false →
  selected (validate_selection es isGM (validate_activeCat cats app)) = Some id.
Proof.
  intros Hsel Hfind Hvis. rewrite <- validate_commute.
  assert (validate_selection es isGM app = app) as ->.
  { unfold validate_selection. by rewrite Hsel, Hfind, Hvis. }
  unfold selected in *.
  by destruct (validate_activeCat_keeps cats app) as [-> _].
Qed.

Section Renders.

Context (enrichHTML : string → string) (toLocaleString : Z → string).

Lemma formatComments_comment (c : Client) (cs : list Comment.t) (isGM : bool) :
  comment <$> _formatComments toLocaleString c cs isGM = cs.
Proof.
  unfold _formatComments. induction cs as [|cm cs IH]; [done|].
  csimpl. by rewrite IH.
Qed.

Lemma formatComments_deletable (c : Client) (cs : list Comment.t) :
  comment <$> List.filter canDelete (_formatComments toLocaleString c cs (User.isGM (user c)))
  = if User.isGM (user c) then cs
    else List.filter (λ cm, bool_decide (Comment.userId cm = User.id (user c))) cs.
Proof.
  unfold _formatComments. destruct (User.isGM (user c)).
  - induction cs as [|cm cs IH]; [done|]. cbn. by f_equal.
  - induction cs as [|cm cs IH]; [done|]. cbn.
    destruct (bool_decide _); cbn; by f_equal.
Qed.

(** X7. A context always names a configured category as the active one:
    an [_activeCat] that is the id of a configured category is kept, and a
    stale or missing one is replaced by the id of the first configured
    category, in the context and in the view state. *)
Theorem prepareContext_activeCat_valid (c : Client) (app : App) :
  _activeCat (_prepareContext enrichHTML toLocaleString c app).2
    = Context.activeCat (_prepareContext enrichHTML toLocaleString c app).1 ∧
  (∃ k, k ∈ getCategories c ∧
        Context.activeCat (_prepareContext enrichHTML toLocaleString c app).1
          = Some (Category.id k)) ∧
  ((∃ k, k ∈ getCategories c ∧ _activeCat app = Some (Category.id k)) →
   Context.activeCat (_prepareContext enrichHTML toLocaleString c app).1
     = _activeCat app) ∧
  ((∀ k, k ∈ getCategories c → Some (Category.id k) ≠ _activeCat app) →
   Context.activeCat (_prepareContext enrichHTML toLocaleString c app).1
     = Category.id <$> head (getCategories c)).
Proof.
  unfold _prepareContext, assemble. cbn [fst snd Context.activeCat].
  destruct (validate_selection_keeps (getEntries c) (User.isGM (user c))
              (validate_activeCat (getCategories c) app)) as [-> _].
  split; [done|]. split.
  { apply validate_activeCat_valid, getCategories_nonempty. }
  unfold validate_activeCat.
  destruct (List.find _ (getCategories c)) as [k0|] eqn:Hfind.
  - split; [done|]. intros Hstale.
    apply List.find_some in Hfind as [Hin Hk].
    apply bool_decide_eq_true in Hk.
    by destruct (Hstale k0); [apply list_elem_of_In|].
  - split; [|done]. intros (k & Hin & Hk).
    apply list_elem_of_In in Hin.
    eapply List.find_none in Hfind; [|done].
    apply bool_decide_eq_false in Hfind. by destruct Hfind.
Qed.

(** X13. For the selected entry, when it is visible to the user, the context
    lists the entry's stored comments in their order; the ones marked
    deletable are all of them for a GM and exactly the user's own for a
    Player, and [hasComments] tells whether there is any. *)
Theorem selected_entry_comments (c : Client) (app : App) (id : string) (e : Entry.t) :
  selected app = Some id →
  find_entry id (getEntries c) = Some e →
  Entry.hidden e && negb (User.isGM (user c)) = false →
  comment <$> Context.formattedComments (_prepareContext enrichHTML toLocaleString c app).1
  = default [] (Entry.comments e) ∧
  comment <$>
    List.filter canDelete
      (Context.formattedComments (_prepareContext enrichHTML toLocaleString c app).1)
  = (if User.isGM (user c) then default [] (Entry.comments e)
     else List.filter (λ cm, bool_decide (Comment.userId cm = User.id (user c)))
            (default [] (Entry.comments e))) ∧
  Context.hasComments (_prepareContext enrichHTML toLocaleString c app).1
  = bool_decide (default [] (Entry.comments e) ≠ []).
Proof.
  intros Hsel Hfind Hvis.
  unfold _prepareContext, assemble.
  cbn [fst Context.formattedComments Context.hasComments].
  rewrite (selected_validated (getCategories c) (getEntries c) (User.isGM (user c))
             app id e Hsel Hfind Hvis), Hfind.
  cbn [mbind option_bind].
  generalize (default [] (Entry.comments e)). intros cs.
  split; [apply formatComments_comment|]. split.
  - apply formatComments_deletable.
  - unfold _formatComments. rewrite length_fmap.
    apply bool_decide_ext. destruct cs; simpl; split; intros; try done; lia.
Qed.

(** X8. Rendering is idempotent: a second [_prepareContext] on the view
    state left by the first gives the same context and the same view
    state. *)
Theorem prepareContext_idempotent (c : Client) (app : App) :
  _prepareContext enrichHTML toLocaleString c
    (_prepareContext enrichHTML toLocaleString c app).2
  = _prepareContext enrichHTML toLocaleString c app.
Proof.
  unfold _prepareContext. cbn [snd].
  set (cats := getCategories c). set (es := getEntries c).
  set (g := User.isGM (user c)).
  assert (validate_activeCat cats (validate_selection es g (validate_activeCat cats app))
          = validate_selection es g (validate_activeCat cats app)) as Hvac.
  { by rewrite validate_commute, validate_activeCat_idem. }
  rewrite Hvac, validate_selection_idem.
  destruct (validate_selection_keeps es g (validate_activeCat cats app)) as [Hc Hq].
  destruct (validate_activeCat_keeps cats app) as [_ Hq0].
  rewrite Hq, Hq0.
  by rewrite (filterEntries_view _ (validate_activeCat cats app) es g Hc Hq).
Qed.

(** X9. Selection auto-clear: when the selected id belongs to no stored
    entry, or to an entry hidden from this user, the context has no current
    entry and the selection of the view state is reset. *)
Theorem selection_auto_clear (c : Client) (app : App) (id : string) :
  selected app = Some id →
  match find_entry id (getEntries c) with
  | Some e => Entry.hidden e = true ∧ User.isGM (user c) = false
  | None => True
  end →
  Context.current (_prepareContext enrichHTML toLocaleString c app).1 = None ∧
  _selectedEntry (_prepareContext enrichHTML toLocaleString c app).2 = None.
Proof.
  intros Hsel Hgone.
  unfold _prepareContext, assemble. cbn [fst snd Context.current].
  rewrite <- validate_commute.
  destruct (validate_activeCat_keeps (getCategories c)
              (validate_selection (getEntries c) (User.isGM (user c)) app)) as [Hs _].
  unfold selected. rewrite Hs.
  unfold validate_selection. rewrite Hsel.
  destruct (find_entry id (getEntries c)) as [e|]; [|done].
  destruct Hgone as [-> ->]. done.
Qed.

(** X10. With an empty search box and a valid active category the two
    revisions of [_prepareContext] return the same context and leave the
    same view state. *)
Theorem prepareContext_revisions_agree (c : Client) (app : App) :
  Js.truthy (_searchQuery app) = false →
  validate_activeCat (getCategories c) app = app →
  _prepareContext_v1 enrichHTML toLocaleString c app
  = (Some (_prepareContext enrichHTML toLocaleString c app).1,
     (_prepareContext enrichHTML toLocaleString c app).2).
Proof.
  intros Hq Hcat. unfold _prepareContext_v1, _prepareContext. cbn [fst snd].
  assert (Js.truthy (Js.toLowerCase (_searchQuery app)) = false) as Hq'.
  { by destruct (_searchQuery app). }
  rewrite Hq'. cbn [andb].
  rewrite validate_commute, Hcat.
  do 3 f_equal. apply list_fmap_ext. intros _ e _.
  unfold annotate. by rewrite Hq'.
Qed.

End Renders.

Lemma lower_idem (a : ascii) : Js.lower (Js.lower a) = Js.lower a.
Proof. by destruct a as [[] [] [] [] [] [] [] []]. Qed.

Lemma toLowerCase_idem (s : string) :
  Js.toLowerCase (Js.toLowerCase s) = Js.toLowerCase s.
Proof. induction s as [|a s IH]; simpl; [done|]. by rewrite lower_idem, IH. Qed.

(** X11. The search does not depend on the case of the query: typing the
    query in lower case lists the same entries. *)
Theorem search_ignores_query_case (q : string) (app : App) (es : list Entry.t)
    (isGM : bool) :
  _filterEntries (_input (Js.toLowerCase q) app) es isGM
  = _filterEntries (_input q app) es isGM.
Proof.
  unfold _filterEntries, visible_in_list, _input. simpl.
  by rewrite toLowerCase_idem.
Qed.

(** ** Cross-references and tag stripping *)

Lemma str_app_nil (s : string) : "" +:+ s = s.
Proof. reflexivity. Qed.

Lemma str_app_cons (a : ascii) (s t : string) : String a s +:+ t = String a (s +:+ t).
Proof. reflexivity. Qed.

Lemma str_app_assoc (s t u : string) : (s +:+ t) +:+ u = s +:+ t +:+ u.
Proof. induction s as [|a s IH]; [done|]. by rewrite !str_app_cons, IH. Qed.

Lemma str_length_app (s t : string) :
  String.length (s +:+ t) = String.length s + String.length t.
Proof. induction s as [|a s IH]; [done|]. rewrite str_app_cons. simpl. by rewrite IH. Qed.

Lemma has_char_app (x : ascii) (s t : string) :
  Js.has_char x (s +:+ t) = Js.has_char x s || Js.has_char x t.
Proof.
  induction s as [|a s IH]; [done|]. rewrite str_app_cons. simpl.
  by rewrite IH, orb_assoc.
Qed.

Lemma has_char_cons_false (x a : ascii) (s : string) :
  Js.has_char x (String a s) = false → a ≠ x ∧ Js.has_char x s = false.
Proof.
  simpl. intros [Ha Hs]%orb_false_iff. split; [|done].
  by apply bool_decide_eq_false in Ha.
Qed.

Lemma span_title_stop (t rest : string) :
  Js.has_char "]" t = false →
  Js.span_title (t +:+ String "]" rest) = (t, String "]" rest).
Proof.
  induction t as [|a t IH]; intros Ht.
  - done.
  - apply has_char_cons_false in Ht as [Ha Ht].
    rewrite str_app_cons. simpl.
    rewrite bool_decide_eq_false_2 by done. by rewrite (IH Ht).
Qed.

Lemma link_at_reference (t post : string) :
  t ≠ "" → Js.has_char "]" t = false →
  Js.link_at ("[[" +:+ t +:+ "]]" +:+ post) = Some t.
Proof.
  intros Hne Ht.
  change ("[[" +:+ t +:+ "]]" +:+ post)
    with (String "[" (String "[" (t +:+ String "]" (String "]" post)))).
  unfold Js.link_at. rewrite (span_title_stop t _ Ht).
  by destruct t.
Qed.

Lemma link_at_other (a : ascii) (r : string) :
  a ≠ "["%char → Js.link_at (String a r) = None.
Proof. intros Ha. by destruct a as [[] [] [] [] [] [] [] []]. Qed.

Lemma replace_links_skip (f : string → string) (s1 s2 : string) :
  Js.replace_links f (String.length s1) (s1 +:+ s2) = Js.replace_links f 0 s2.
Proof.
  induction s1 as [|a s1 IH]; [done|].
  rewrite str_app_cons. simpl. apply IH.
Qed.

Lemma replace_links_at_link (f : string → string) (a : ascii) (r t : string) :
  Js.link_at (String a r) = Some t →
  Js.replace_links f 0 (String a r)
  = f t +:+ Js.replace_links f (String.length t + 3) r.
Proof. intros H. cbn [Js.replace_links]. by rewrite H. Qed.

Lemma replace_links_at_other (f : string → string) (a : ascii) (r : string) :
  Js.link_at (String a r) = None →
  Js.replace_links f 0 (String a r) = String a (Js.replace_links f 0 r).
Proof. intros H. cbn [Js.replace_links]. by rewrite H. Qed.

Lemma replace_links_plain (f : string → string) (s : string) :
  Js.has_char "[" s = false → Js.replace_links f 0 s = s.
Proof.
  induction s as [|a s IH]; intros Hs; [done|].
  apply has_char_cons_false in Hs as [Ha Hs].
  rewrite (replace_links_at_other f a s (link_at_other a s Ha)).
  by rewrite (IH Hs).
Qed.

Lemma replace_links_reference (f : string → string) (pre t post : string) :
  Js.has_char "[" pre = false → t ≠ "" → Js.has_char "]" t = false →
  Js.replace_links f 0 (pre +:+ "[[" +:+ t +:+ "]]" +:+ post)
  = pre +:+ f t +:+ Js.replace_links f 0 post.
Proof.
  intros Hpre Hne Ht. induction pre as [|a pre IH].
  - rewrite !str_app_nil.
    pose proof (link_at_reference t post Hne Ht) as Hlink.
    change ("[[" +:+ t +:+ "]]" +:+ post)
      with (String "[" (String "[" (t +:+ "]]" +:+ post))) in *.
    rewrite (replace_links_at_link f _ _ t Hlink). f_equal.
    rewrite <- (replace_links_skip f (String "[" (t +:+ "]]")) post).
    f_equal.
    + simpl. rewrite str_length_app. simpl. lia.
    + by rewrite (str_app_cons "[" (t +:+ "]]") post), (str_app_assoc t "]]" post).
  - apply has_char_cons_false in Hpre as [Ha Hpre].
    rewrite (str_app_cons a pre), (str_app_cons a pre).
    rewrite (replace_links_at_other f a _ (link_at_other a _ Ha)).
    by rewrite (IH Hpre).
Qed.

(** X12. A reference [[[t]]] after text without brackets: the text before
    it is kept, the reference is replaced by the anchor of [t] (resolved or
    missing), and the rest of the text is processed the same way. *)
Theorem reference_is_rendered (es : list Entry.t) (pre t post : string) :
  Js.has_char "[" pre = false → t ≠ "" → Js.has_char "]" t = false →
  processEntryLinks (Some (pre +:+ "[[" +:+ t +:+ "]]" +:+ post)) es
  = Some (pre +:+ render_link es t +:+
          default "" (processEntryLinks (Some post) es)).
Proof.
  intros Hpre Hne Ht. unfold processEntryLinks.
  rewrite (replace_links_reference _ pre t post Hpre Hne Ht).
  assert (Js.truthy (pre +:+ "[[" +:+ t +:+ "]]" +:+ post) = true) as ->.
  { by destruct pre. }
  by destruct post.
Qed.

(** Text without an opening bracket comes back from
    [processEntryLinks] as it went in, and so do [null] and the empty
    text. *)
Theorem text_without_reference_unchanged (es : list Entry.t) (s : string) :
  Js.has_char "[" s = false →
  processEntryLinks (Some s) es = Some s ∧ processEntryLinks None es = None.
Proof.
  intros Hs. split; [|done]. unfold processEntryLinks.
  destruct (Js.truthy s); [|done]. by rewrite (replace_links_plain _ s Hs).
Qed.

Lemma blank_tags_close (t rest : string) :
  Js.has_char ">" t = false →
  Js.blank_tags true (t +:+ String ">" rest) = Js.blank_tags false rest.
Proof.
  induction t as [|a t IH]; intros Ht; [done|].
  apply has_char_cons_false in Ht as [Ha Ht].
  rewrite str_app_cons. simpl.
  rewrite bool_decide_eq_false_2 by done. by apply IH.
Qed.

(** X14. The body text searched: a tag after text without ["<"] is replaced
    by one space, whatever stands between its brackets, and the text before
    it is kept. *)
Theorem tag_is_blanked (pre t post : string) :
  Js.has_char "<" pre = false → Js.has_char ">" t = false →
  Js.strip_tags (pre +:+ "<" +:+ t +:+ ">" +:+ post)
  = pre +:+ " " +:+ Js.strip_tags post.
Proof.
  intros Hpre Ht. unfold Js.strip_tags. induction pre as [|a pre IH].
  - change ("" +:+ "<" +:+ t +:+ ">" +:+ post)
      with (String "<" (t +:+ String ">" post)).
    assert (Js.has_char ">" (t +:+ String ">" post) = true) as Hclosed.
    { rewrite has_char_app. simpl. apply orb_true_r. }
    cbn [Js.blank_tags]. rewrite Hclosed, bool_decide_eq_true_2 by done.
    simpl. by rewrite (blank_tags_close t post Ht).
  - apply has_char_cons_false in Hpre as [Ha Hpre].
    rewrite (str_app_cons a pre), (str_app_cons a pre). cbn [Js.blank_tags].
    rewrite bool_decide_eq_false_2 by done. simpl. by rewrite (IH Hpre).
Qed.

(** A ["<"] that no [">"] follows is not a tag: text without [">"] is
    searched as it is. *)
Theorem unclosed_bracket_is_kept (s : string) :
  Js.has_char ">" s = false → Js.strip_tags s = s.
Proof.
  unfold Js.strip_tags. induction s as [|a s IH]; intros Hs; [done|].
  apply has_char_cons_false in Hs as [Ha Hs].
  cbn [Js.blank_tags]. rewrite Hs, andb_false_r. by rewrite (IH Hs).
Qed.

(** ** Entry mutators on a GM client *)

Lemma findIndex_insert (id : string) (es : list Entry.t) (idx : nat) (en en' : Entry.t) :
  findIndex id es = Some (idx, en) → Entry.id en' = id →
  findIndex id (<[idx := en']> es) = Some (idx, en').
Proof.
  unfold findIndex. intros (Hlook & _ & Hfirst)%list_find_Some Hid.
  apply list_find_Some. split; [|split; [done|]].
  - apply list_lookup_insert_eq. by eapply lookup_lt_Some.
  - intros j y Hy Hj. rewrite list_lookup_insert_ne in Hy by lia. eauto.
Qed.

Lemma saveEntries_gm (E : list Entry.t) (c : Client) :
  User.isGM (user c) = true →
  saveEntries E c = (true, refreshAllWikiApps (emit refresh (set_wikiEntries E c))).
Proof. intros Hgm. unfold saveEntries. by rewrite Hgm. Qed.

Lemma with_hidden_twice (en : Entry.t) :
  Entry.with_hidden (negb (negb (Entry.hidden en)))
    (Entry.with_hidden (negb (Entry.hidden en)) en) = en.
Proof. destruct en. unfold Entry.with_hidden. simpl. by rewrite negb_involutive. Qed.

(** X16. On a GM client the hide toggle flips [hidden] of the selected
    entry and of nothing else, and a second click restores the stored
    collection. *)
Theorem toggle_hidden_twice (app : App) (c : Client) (id : string) (idx : nat)
    (en : Entry.t) :
  User.isGM (user c) = true →
  selected app = Some id →
  findIndex id (getEntries c) = Some (idx, en) →
  getEntries (_onClickToggleHidden app c)
    = <[idx := Entry.with_hidden (negb (Entry.hidden en)) en]> (getEntries c) ∧
  getEntries (_onClickToggleHidden app (_onClickToggleHidden app c)) = getEntries c.
Proof.
  intros Hgm Hsel Hidx.
  assert (_onClickToggleHidden app c
          = refreshAllWikiApps
              (emit refresh
                 (set_wikiEntries
                    (<[idx := Entry.with_hidden (negb (Entry.hidden en)) en]>
                       (getEntries c)) c))) as Hfirst.
  { unfold _onClickToggleHidden. rewrite Hsel, Hgm, Hidx. simpl.
    by rewrite saveEntries_gm. }
  split; [by rewrite Hfirst|].
  rewrite Hfirst. unfold _onClickToggleHidden at 1. rewrite Hsel. simpl.
  rewrite Hgm. simpl.
  rewrite (findIndex_insert id (getEntries c) idx en _ Hidx).
  2:{ apply list_find_Some in Hidx as (_ & Hid & _). by destruct en. }
  rewrite saveEntries_gm by done. simpl.
  rewrite list_insert_insert_eq, with_hidden_twice.
  apply list_insert_id. by apply list_find_Some in Hidx as (? & _ & _).
Qed.

Lemma filter_sublist {A} (p : A → bool) (l : list A) : sublist (List.filter p l) l.
Proof.
  induction l as [|x l IH]; simpl; [done|].
  destruct (p x); by constructor.
Qed.

(** X17. The permanent delete on a GM client, once confirmed: every stored
    entry with the selected id is gone, the other entries stay in their
    order, the selection is reset and one [refresh] is sent.  Declining the
    dialog changes nothing. *)
Theorem gm_delete_removes_selected (app : App) (c : Client) (id : string) :
  User.isGM (user c) = true →
  selected app = Some id →
  _selectedEntry (_onClickGmDelete true app c).1 = None ∧
  (∀ e, e ∈ getEntries (_onClickGmDelete true app c).2
        ↔ e ∈ getEntries c ∧ Entry.id e ≠ id) ∧
  sublist (getEntries (_onClickGmDelete true app c).2) (getEntries c) ∧
  sent (_onClickGmDelete true app c).2 = sent c ++ [refresh] ∧
  _onClickGmDelete false app c = (app, c).
Proof.
  intros Hgm Hsel. unfold _onClickGmDelete. rewrite Hsel.
  rewrite saveEntries_gm by done. simpl.
  split; [done|]. split; [|split; [apply filter_sublist|done]].
  intros e. rewrite !list_elem_of_In, List.filter_In.
  rewrite negb_true_iff, bool_decide_eq_false. done.
Qed.

Lemma filter_fresh_comment (newId : string) (cs : list Comment.t) :
  newId ∉ (Comment.id <$> cs) →
  List.filter (λ cm, negb (bool_decide (Comment.id cm = newId))) cs = cs.
Proof.
  induction cs as [|cm cs IH]; intros Hfresh; simpl; [done|].
  rewrite fmap_cons in Hfresh. apply not_elem_of_cons in Hfresh as [Hne Hfresh].
  rewrite bool_decide_eq_false_2 by done. simpl. by rewrite IH.
Qed.

Lemma filter_app_bool {A} (p : A → bool) (l k : list A) :
  List.filter p (l ++ k) = List.filter p l ++ List.filter p k.
Proof. induction l as [|x l IH]; simpl; [done|]. destruct (p x); simpl; by rewrite IH. Qed.

(** X18. On a GM client a posted comment goes to the end of the entry's
    comments under the poster's id and name, and deleting it by its fresh id
    gives back the stored collection. *)
Theorem submit_then_delete_comment (app : App) (c : Client) (id : string) (idx : nat)
    (en : Entry.t) (cs : list Comment.t) (text txt newId : string) (now : Z) :
  User.isGM (user c) = true →
  selected app = Some id →
  findIndex id (getEntries c) = Some (idx, en) →
  Entry.comments en = Some cs →
  Js.trim text = txt → Js.truthy txt = true →
  newId ∉ (Comment.id <$> cs) →
  getEntries (_submitComment (Some text) newId now app c)
    = <[idx := Entry.with_comments
                 (cs ++ [Comment.mk newId (User.name (user c)) (User.id (user c)) txt now])
                 en]> (getEntries c) ∧
  getEntries (_deleteComment newId app (_submitComment (Some text) newId now app c))
    = getEntries c.
Proof.
  intros Hgm Hsel Hidx Hcs Htxt Htruthy Hfresh.
  set (cm := Comment.mk newId (User.name (user c)) (User.id (user c)) txt now).
  assert (_submitComment (Some text) newId now app c
          = refreshAllWikiApps
              (emit refresh
                 (set_wikiEntries
                    (<[idx := Entry.with_comments (cs ++ [cm]) en]> (getEntries c)) c)))
    as Hsubmit.
  { unfold _submitComment. rewrite Hsel. simpl. rewrite Htxt, Htruthy. simpl.
    rewrite Hidx, Hcs. simpl. by rewrite saveEntries_gm. }
  split; [by rewrite Hsubmit|].
  rewrite Hsubmit. unfold _deleteComment. rewrite Hsel. simpl.
  rewrite (findIndex_insert id (getEntries c) idx en _ Hidx).
  2:{ apply list_find_Some in Hidx as (_ & Hid & _). by destruct en. }
  rewrite saveEntries_gm by done. simpl.
  rewrite list_insert_insert_eq, filter_app_bool, filter_fresh_comment by done.
  simpl. rewrite bool_decide_eq_true_2 by done. simpl. rewrite app_nil_r.
  apply list_insert_id.
  apply list_find_Some in Hidx as (Hlook & _ & _). rewrite Hlook. f_equal.
  destruct en. unfold Entry.with_comments. simpl in *. by rewrite Hcs.
Qed.

(** A comment that is missing or blank is not posted: the client is
    left as it is, with nothing stored and nothing sent. *)
Theorem blank_comment_is_ignored (text : option string) (newId : string) (now : Z)
    (app : App) (c : Client) :
  match text with Some t => Js.trim t = "" | None => True end →
  _submitComment text newId now app c = c.
Proof.
  intros Hblank. unfold _submitComment.
  destruct (selected app); [|done].
  destruct text as [t|]; simpl; [|done]. by rewrite Hblank.
Qed.

(** ** The entry editor *)

(** X20. A save with a missing or blank title is refused on the spot: the
    editor stays open as it was, the warning is shown, and nothing is stored
    or sent, whatever the role. *)
Theorem blank_title_is_refused (f : Form) (now : Z) (newId : string) (ed : Editor)
    (c : Client) :
  match fd_title f with Some t => Js.trim t = "" | None => True end →
  _handleSave f now newId ed c
  = (ed, notify (warn "Please enter a title for the entry.") c, false).
Proof.
  intros Hblank. unfold _handleSave.
  destruct (fd_title f) as [t|]; simpl; [|done]. by rewrite Hblank.
Qed.

(** X21. A Player creates an entry while a GM is connected: the relayed
    collection is the stored one followed by the new entry, which is
    visible, not flagged, without a [gmNotes] key, with no comments and with
    the player's name as creator and last editor; the editor closes without
    a lock message. *)
Theorem player_creates_entry (c : Client) (ed : Editor) (f : Form) (title : string)
    (now : Z) (newId : string) (g : User.t) :
  User.isGM (user c) = false →
  activeGM c = Some g →
  editor_entry_id ed = None →
  Js.trim <$> fd_title f = Some title →
  Js.truthy title = true →
  _handleSave f now newId ed c
  = (ed,
     emit (requestSave
             (getEntries c ++
              [Entry.mk newId title (fd_category f) (form_content f) false false
                 now now (User.name (user c)) (User.name (user c)) None (Some [])]))
          c,
     true).
Proof.
  intros Hp Hg Hid Ht Htruthy. unfold _handleSave. rewrite Ht, Htruthy.
  unfold edited_entries, created_entry. rewrite Hid, Hp.
  rewrite (saveEntries_relayed _ _ g Hp Hg).
  unfold _broadcastEditingStop. rewrite Hid. by destruct (_broadcastedStart ed).
Qed.


(** X23. A save from an editor whose entry has meanwhile been deleted: the
    stored collection stays as it is, yet the save goes through and the
    editor closes without a warning, so the edit is dropped. *)
Theorem save_of_deleted_entry_is_dropped (c : Client) (ed : Editor) (f : Form)
    (title : string) (now : Z) (newId id : string) :
  User.isGM (user c) = true →
  Js.trim <$> fd_title f = Some title →
  Js.truthy title = true →
  editor_entry_id ed = Some id →
  findIndex id (getEntries c) = None →
  (_handleSave f now newId ed c).2 = true ∧
  getEntries (_handleSave f now newId ed c).1.2 = getEntries c ∧
  notifications (_handleSave f now newId ed c).1.2 = notifications c.
Proof.
  intros Hgm Ht Htruthy Hid Hidx. unfold _handleSave. rewrite Ht, Htruthy.
  unfold edited_entries. rewrite Hid, Hidx.
  rewrite saveEntries_gm by done.
  unfold _broadcastEditingStop. rewrite Hid.
  by destruct (_broadcastedStart ed).
Qed.

(** X24. A save that goes through releases the editor's lock: the editor
    closes, its flag is reset, the entry is unlocked on this client, and the
    last message sent is the [editingStop] of this user for the entry. *)
Theorem save_releases_lock (c : Client) (ed : Editor) (f : Form) (title : string)
    (now : Z) (newId id : string) :
  User.isGM (user c) = true ∨ is_Some (activeGM c) →
  Js.trim <$> fd_title f = Some title →
  Js.truthy title = true →
  editor_entry_id ed = Some id →
  _broadcastedStart ed = true →
  (_handleSave f now newId ed c).2 = true ∧
  _broadcastedStart (_handleSave f now newId ed c).1.1 = false ∧
  activeEditors (_handleSave f now newId ed c).1.2 !! id = None ∧
  last (sent (_handleSave f now newId ed c).1.2)
    = Some (editingStop id (User.id (user c))).
Proof.
  intros Hok Ht Htruthy Hid Hflag. unfold _handleSave. rewrite Ht, Htruthy.
  assert (∃ c1, saveEntries (edited_entries c ed f title now newId) c = (true, c1)
                ∧ user c1 = user c) as (c1 & -> & Hu).
  { unfold saveEntries. destruct (User.isGM (user c)) eqn:Hgm; [by eexists|].
    destruct Hok as [?|[g Hg]]; [done|]. rewrite Hg. by eexists. }
  unfold _broadcastEditingStop. rewrite Hid, Hflag. simpl.
  rewrite lookup_delete_eq, last_snoc, Hu. done.
Qed.

(** ** Category settings: saving, reordering, adding *)


(** On a Player client the host refuses the write: the stored categories
    stay, nothing is sent and the window stays open. *)
Lemma category_save_refused_for_player (rows : list Row) (working : list Category.t)
    (c : Client) :
  User.isGM (user c) = false →
  (_save rows working c).2 = false ∧
  wikiCategories (_save rows working c).1.2 = wikiCategories c ∧
  sent (_save rows working c).1.2 = sent c.
Proof.
  intros Hp. unfold _save, set_categories_setting. rewrite Hp.
  case_bool_decide; [done|]. by destruct (existsb unnamed _).
Qed.

Lemma swap_lookup (i j : nat) (w : list Category.t) (x y : Category.t) :
  w !! i = Some x → w !! j = Some y → i ≠ j →
  swap i j w !! i = Some y ∧ swap i j w !! j = Some x ∧
  ∀ n, n ≠ i → n ≠ j → swap i j w !! n = w !! n.
Proof.
  intros Hi Hj Hne. unfold swap. rewrite Hi, Hj.
  pose proof (lookup_lt_Some _ _ _ Hi). pose proof (lookup_lt_Some _ _ _ Hj).
  repeat split.
  - apply list_lookup_insert_eq. by rewrite length_insert.
  - rewrite list_lookup_insert_ne by done. by apply list_lookup_insert_eq.
  - intros n Hni Hnj. by rewrite !list_lookup_insert_ne.
Qed.

Lemma swap_back (i j : nat) (w : list Category.t) (x y : Category.t) :
  w !! i = Some x → w !! j = Some y → i ≠ j → swap i j (swap i j w) = w.
Proof.
  intros Hi Hj Hne.
  destruct (swap_lookup i j w x y Hi Hj Hne) as (Hsi & Hsj & Hother).
  unfold swap at 1. rewrite Hsi, Hsj.
  apply list_eq. intros n.
  destruct (decide (n = i)) as [->|Hni].
  - rewrite list_lookup_insert_eq; [done|].
    rewrite length_insert. by eapply lookup_lt_Some.
  - rewrite list_lookup_insert_ne by done.
    destruct (decide (n = j)) as [->|Hnj].
    + rewrite list_lookup_insert_eq; [done|]. by eapply lookup_lt_Some.
    + rewrite list_lookup_insert_ne by done. by apply Hother.
Qed.

(** X26. The move-up button: a category found below the first row changes
    places with the row above it and every other row stays where it is; for
    the first row, or an id that is not in the working set, the working set
    is only brought up to date with the rows. *)
Theorem move_up_swaps_with_previous (catId : string) (rows : list Row)
    (working : list Category.t) :
  match list_find (λ k, Category.id k = catId) (_syncFromDOM rows working) with
  | Some (S i, k) =>
      move_up catId rows working !! i = Some k ∧
      move_up catId rows working !! S i = _syncFromDOM rows working !! i ∧
      ∀ n, n ≠ i → n ≠ S i →
           move_up catId rows working !! n = _syncFromDOM rows working !! n
  | _ => move_up catId rows working = _syncFromDOM rows working
  end.
Proof.
  unfold move_up.
  destruct (list_find _ (_syncFromDOM rows working)) as [[[|i] k]|] eqn:Hfind;
    [done| |done].
  rewrite bool_decide_eq_true_2 by lia.
  replace (S i - 1) with i by lia.
  apply list_find_Some in Hfind as (Hk & _ & _).
  destruct (_syncFromDOM rows working !! i) as [j|] eqn:Hj.
  2:{ apply lookup_ge_None in Hj. apply lookup_lt_Some in Hk. lia. }
  destruct (swap_lookup i (S i) _ j k Hj Hk ltac:(lia)) as (H1 & H2 & H3).
  by rewrite H1, H2.
Qed.

(** X27. Moving a category up and then down again, with rows that show the
    working set as it stands, gives back the working set from before the
    two clicks. *)
Theorem move_up_then_down (catId : string) (rows rows' : list Row)
    (working : list Category.t) (i : nat) (k : Category.t) :
  list_find (λ k, Category.id k = catId) (_syncFromDOM rows working) = Some (S i, k) →
  _syncFromDOM rows' (move_up catId rows working) = move_up catId rows working →
  move_down catId rows' (move_up catId rows working)
  = Some (_syncFromDOM rows working).
Proof.
  intros Hfind Hshown. unfold move_down. rewrite Hshown.
  assert (move_up catId rows working
          = swap i (S i) (_syncFromDOM rows working)) as Hup.
  { unfold move_up. rewrite Hfind. rewrite bool_decide_eq_true_2 by lia.
    by replace (S i - 1) with i by lia. }
  rewrite Hup.
  apply list_find_Some in Hfind as (Hk & Hid & Hfirst).
  destruct (_syncFromDOM rows working !! i) as [j|] eqn:Hj.
  2:{ apply lookup_ge_None in Hj. apply lookup_lt_Some in Hk. lia. }
  destruct (swap_lookup i (S i) _ j k Hj Hk ltac:(lia)) as (H1 & H2 & H3).
  assert (list_find (λ k0, Category.id k0 = catId)
            (swap i (S i) (_syncFromDOM rows working)) = Some (i, k)) as ->.
  { apply list_find_Some. split; [done|]. split; [done|].
    intros n y Hy Hn. rewrite H3 in Hy by lia. apply (Hfirst n y Hy). lia. }
  rewrite bool_decide_eq_true_2.
  2:{ apply lookup_lt_Some in H2. lia. }
  f_equal. replace (i + 1) with (S i) by lia.
  by apply (swap_back i (S i) _ j k).
Qed.

(** X28. The add button keeps category ids distinct: the ids after the
    click are the ids before it, or those followed by one new id that none
    of them equals. *)
Theorem add_category_keeps_ids_distinct (label_in icon_in : option string)
    (stamp : string) (rows : list Row) (working : list Category.t) (c : Client) :
  NoDup (Category.id <$> working) →
  NoDup (Category.id <$> (add_category label_in icon_in stamp rows working c).1) ∧
  (Category.id <$> (add_category label_in icon_in stamp rows working c).1
     = Category.id <$> working ∨
   ∃ id, Category.id <$> (add_category label_in icon_in stamp rows working c).1
         = (Category.id <$> working) ++ [id]).
Proof.
  intros Hnodup. unfold add_category.
  destruct (Js.trim <$> label_in) as [label|]; [|by auto].
  destruct (Js.truthy label); simpl; [|by auto].
  set (id := if Js.truthy (slug label) then slug label else "cat-" +:+ stamp).
  destruct (List.find _ working) as [k|] eqn:Hfind; [by auto|].
  simpl. rewrite fmap_app, syncFromDOM_ids. simpl. split; [|by eauto].
  apply NoDup_app. split; [done|]. split; [|apply NoDup_singleton].
  intros x Hx Hxid. apply list_elem_of_singleton in Hxid. subst x.
  apply list_elem_of_fmap in Hx as (k & Hk & Hin).
  apply list_elem_of_In in Hin.
  pose proof (List.find_none _ _ Hfind k Hin) as Hf. simpl in Hf.
  apply bool_decide_eq_false in Hf. congruence.
Qed.

Lemma all_chars_keep (s : string) : all_chars slug_char (keep_slug_chars s) = true.
Proof.
  induction s as [|a s IH]; [done|]. simpl.
  destruct (slug_char a) eqn:Ha; [|done]. simpl. by rewrite Ha, IH.
Qed.

Lemma all_chars_collapse (p : ascii → bool) (b : bool) (s : string) :
  all_chars p s = true → all_chars p (collapse_dashes b s) = true.
Proof.
  revert b. induction s as [|a s IH]; intros b; [done|]. simpl.
  intros [Ha Hs]%andb_true_iff.
  case_bool_decide as Hd.
  - subst a. destruct b; simpl; rewrite ?Ha; simpl; auto.
  - simpl. rewrite Ha. simpl. auto.
Qed.

Lemma all_chars_drop_last (p : ascii → bool) (s : string) :
  all_chars p s = true → all_chars p (drop_last_dash s) = true.
Proof.
  induction s as [|a s IH]; [done|].
  intros [Ha Hs]%andb_true_iff.
  destruct s as [|b s].
  - simpl. case_bool_decide; [done|]. simpl. by rewrite Ha.
  - change (drop_last_dash (String a (String b s)))
      with (String a (drop_last_dash (String b s))).
    simpl all_chars at 1. rewrite Ha. simpl. by apply IH.
Qed.

Lemma all_chars_strip (p : ascii → bool) (s : string) :
  all_chars p s = true → all_chars p (strip_dash_ends s) = true.
Proof.
  intros Hs. unfold strip_dash_ends.
  destruct s as [|a s]; [done|].
  assert (all_chars p (drop_last_dash s) = true) as Htail.
  { apply all_chars_drop_last. by apply andb_true_iff in Hs as [_ ?]. }
  pose proof (all_chars_drop_last p (String a s) Hs) as Hall.
  by destruct a as [[] [] [] [] [] [] [] []].
Qed.

(** X29. The id derived from a label holds only lower-case letters, digits
    and hyphens, whatever the label. *)
Theorem slug_has_only_id_characters (label : string) :
  all_chars slug_char (slug label) = true.
Proof.
  unfold slug. apply all_chars_strip, all_chars_collapse, all_chars_keep.
Qed.

(** ** The further properties at the sample world *)

Lemma relay_round_trip_witness :
  User.isGM (user Sample.of_bob) = false ∧
  activeGM Sample.of_bob = Some Sample.gm ∧
  User.isGM (user Sample.of_gm) = true ∧
  ∃ m,
    (saveEntries [Sample.vault] Sample.of_bob).1 = true ∧
    sent (saveEntries [Sample.vault] Sample.of_bob).2 = sent Sample.of_bob ++ [m] ∧
    wikiEntries (saveEntries [Sample.vault] Sample.of_bob).2
      = wikiEntries Sample.of_bob ∧
    getEntries (onSocket m Sample.of_gm) = [Sample.vault] ∧
    sent (onSocket m Sample.of_gm) = sent Sample.of_gm ++ [refresh].
Proof.
  do 3 (split; [reflexivity|]).
  apply (relay_round_trip [Sample.vault] Sample.of_bob Sample.of_gm Sample.gm);
    reflexivity.
Defined.

Lemma player_replica_never_writes_witness :
  User.isGM (user Sample.of_bob) = false ∧
  wikiEntries (onSocket (requestSave []) Sample.of_bob) = wikiEntries Sample.of_bob ∧
  wikiCategories (onSocket (requestSave []) Sample.of_bob)
    = wikiCategories Sample.of_bob ∧
  sent (onSocket (requestSave []) Sample.of_bob) = sent Sample.of_bob ∧
  notifications (onSocket (requestSave []) Sample.of_bob)
    = notifications Sample.of_bob.
Proof.
  split; [reflexivity|].
  apply (player_replica_never_writes (requestSave []) Sample.of_bob). reflexivity.
Defined.

Lemma editor_open_close_witness :
  Js.truthy (Entry.id Sample.tavern) = true ∧
  sent (_broadcastEditingStop
          (_onRender (mkEditor (existing Sample.tavern) false) Sample.of_bob).1
          (_onRender (mkEditor (existing Sample.tavern) false) Sample.of_bob).2).2
    = sent Sample.of_bob ++ [editingStart "entry_1" "Bob" "u-bob";
                             editingStop "entry_1" "u-bob"].
Proof.
  split; [reflexivity|].
  apply (editor_open_close Sample.tavern Sample.of_bob Sample.of_gm). reflexivity.
Defined.

Lemma player_list_excludes_hidden_witness :
  User.isGM (user Sample.of_bob) = false ∧
  Sample.tavern ∈ entry <$> Context.entries
    (_prepareContext Sample.enrich Sample.show_date Sample.of_bob Sample.window).1 ∧
  Entry.hidden Sample.tavern = false.
Proof.
  assert (Sample.tavern ∈ entry <$> Context.entries
            (_prepareContext Sample.enrich Sample.show_date Sample.of_bob
               Sample.window).1) as Hin.
  { apply list_elem_of_here. }
  split; [reflexivity|]. split; [exact Hin|].
  apply (player_list_excludes_hidden Sample.enrich Sample.show_date Sample.of_bob
           Sample.window Sample.tavern); [reflexivity | exact Hin].
Defined.

Lemma selection_auto_clear_witness :
  selected Sample.at_vault = Some "entry_2" ∧
  find_entry "entry_2" (getEntries Sample.of_bob) = Some Sample.vault ∧
  Entry.hidden Sample.vault = true ∧
  User.isGM (user Sample.of_bob) = false ∧
  Context.current
    (_prepareContext Sample.enrich Sample.show_date Sample.of_bob Sample.at_vault).1
    = None ∧
  _selectedEntry
    (_prepareContext Sample.enrich Sample.show_date Sample.of_bob Sample.at_vault).2
    = None.
Proof.
  do 4 (split; [reflexivity|]).
  apply (selection_auto_clear Sample.enrich Sample.show_date Sample.of_bob
           Sample.at_vault "entry_2"); [reflexivity|].
  split; reflexivity.
Defined.

Lemma prepareContext_revisions_agree_witness :
  Js.truthy (_searchQuery Sample.window) = false ∧
  validate_activeCat (getCategories Sample.of_bob) Sample.window = Sample.window ∧
  _prepareContext_v1 Sample.enrich Sample.show_date Sample.of_bob Sample.window
  = (Some (_prepareContext Sample.enrich Sample.show_date Sample.of_bob
             Sample.window).1,
     (_prepareContext Sample.enrich Sample.show_date Sample.of_bob Sample.window).2).
Proof.
  do 2 (split; [reflexivity|]).
  apply (prepareContext_revisions_agree Sample.enrich Sample.show_date
           Sample.of_bob Sample.window); reflexivity.
Defined.

Lemma reference_is_rendered_witness :
  Js.has_char "[" "<p>See " = false ∧
  "the vault" ≠ "" ∧
  Js.has_char "]" "the vault" = false ∧
  processEntryLinks
    (Some ("<p>See " +:+ "[[" +:+ "the vault" +:+ "]]" +:+ " below.</p>"))
    (getEntries Sample.of_bob)
  = Some ("<p>See " +:+ render_link (getEntries Sample.of_bob) "the vault" +:+
          default "" (processEntryLinks (Some " below.</p>")
                        (getEntries Sample.of_bob))).
Proof.
  split; [reflexivity|]. split; [discriminate|]. split; [reflexivity|].
  apply (reference_is_rendered (getEntries Sample.of_bob)
           "<p>See " "the vault" " below.</p>");
    [reflexivity | discriminate | reflexivity].
Defined.

Lemma selected_entry_comments_witness :
  selected Sample.window = Some "entry_1" ∧
  find_entry "entry_1" (getEntries Sample.of_alice) = Some Sample.tavern ∧
  Entry.hidden Sample.tavern && negb (User.isGM (user Sample.of_alice)) = false ∧
  comment <$>
    Context.formattedComments
      (_prepareContext Sample.enrich Sample.show_date Sample.of_alice Sample.window).1
  = default [] (Entry.comments Sample.tavern) ∧
  comment <$>
    List.filter canDelete
      (Context.formattedComments
         (_prepareContext Sample.enrich Sample.show_date Sample.of_alice Sample.window).1)
  = (if User.isGM (user Sample.of_alice) then default [] (Entry.comments Sample.tavern)
     else List.filter
            (λ cm, bool_decide (Comment.userId cm = User.id (user Sample.of_alice)))
            (default [] (Entry.comments Sample.tavern))) ∧
  Context.hasComments
    (_prepareContext Sample.enrich Sample.show_date Sample.of_alice Sample.window).1
  = bool_decide (default [] (Entry.comments Sample.tavern) ≠ []).
Proof.
  do 3 (split; [reflexivity|]).
  apply (selected_entry_comments Sample.enrich Sample.show_date Sample.of_alice
           Sample.window "entry_1" Sample.tavern); reflexivity.
Defined.

Lemma prepareContext_activeCat_valid_witness :
  (∀ k, k ∈ getCategories Sample.of_bob → Some (Category.id k) ≠ Some "gone") ∧
  Context.activeCat
    (_prepareContext Sample.enrich Sample.show_date Sample.of_bob
       (mkApp (Some "gone") (Some "entry_1") "")).1
  = Some "lore".
Proof.
  assert (∀ k, k ∈ getCategories Sample.of_bob → Some (Category.id k) ≠ Some "gone")
    as Hstale.
  { intros k Hk.
    change (getCategories Sample.of_bob) with DEFAULT_CATEGORIES in Hk.
    unfold DEFAULT_CATEGORIES in Hk.
    repeat (apply elem_of_cons in Hk as [->|Hk]; [discriminate|]).
    by apply elem_of_nil in Hk. }
  split; [exact Hstale|].
  exact (proj2 (proj2 (proj2
           (prepareContext_activeCat_valid Sample.enrich Sample.show_date Sample.of_bob
              (mkApp (Some "gone") (Some "entry_1") "")))) Hstale).
Defined.

Lemma tag_is_blanked_witness :
  Js.has_char "<" "Gold " = false ∧
  Js.has_char ">" "b class='x'" = false ∧
  Js.strip_tags ("Gold " +:+ "<" +:+ "b class='x'" +:+ ">" +:+ "coins</b>")
  = "Gold " +:+ " " +:+ Js.strip_tags "coins</b>".
Proof.
  do 2 (split; [reflexivity|]).
  apply (tag_is_blanked "Gold " "b class='x'" "coins</b>"); reflexivity.
Defined.

Lemma toggle_hidden_rejects_non_gm_witness :
  User.isGM (user Sample.of_bob) = false ∧
  _onClickToggleHidden Sample.window Sample.of_bob = Sample.of_bob.
Proof.
  split; [reflexivity|].
  apply (toggle_hidden_rejects_non_gm Sample.window Sample.of_bob). reflexivity.
Defined.

Lemma toggle_hidden_twice_witness :
  User.isGM (user Sample.of_gm) = true ∧
  selected Sample.window = Some "entry_1" ∧
  findIndex "entry_1" (getEntries Sample.of_gm) = Some (0, Sample.tavern) ∧
  getEntries (_onClickToggleHidden Sample.window Sample.of_gm)
    = <[0 := Entry.with_hidden (negb (Entry.hidden Sample.tavern)) Sample.tavern]>
        (getEntries Sample.of_gm) ∧
  getEntries (_onClickToggleHidden Sample.window
                (_onClickToggleHidden Sample.window Sample.of_gm))
    = getEntries Sample.of_gm.
Proof.
  do 3 (split; [reflexivity|]).
  apply (toggle_hidden_twice Sample.window Sample.of_gm "entry_1" 0 Sample.tavern);
    reflexivity.
Defined.

Lemma gm_delete_removes_selected_witness :
  User.isGM (user Sample.of_gm) = true ∧
  selected Sample.window = Some "entry_1" ∧
  _selectedEntry (_onClickGmDelete true Sample.window Sample.of_gm).1 = None ∧
  (∀ e, e ∈ getEntries (_onClickGmDelete true Sample.window Sample.of_gm).2
        ↔ e ∈ getEntries Sample.of_gm ∧ Entry.id e ≠ "entry_1") ∧
  sublist (getEntries (_onClickGmDelete true Sample.window Sample.of_gm).2)
          (getEntries Sample.of_gm) ∧
  sent (_onClickGmDelete true Sample.window Sample.of_gm).2
    = sent Sample.of_gm ++ [refresh] ∧
  _onClickGmDelete false Sample.window Sample.of_gm = (Sample.window, Sample.of_gm).
Proof.
  do 2 (split; [reflexivity|]).
  apply (gm_delete_removes_selected Sample.window Sample.of_gm "entry_1");
    reflexivity.
Defined.

Lemma submit_then_delete_comment_witness :
  User.isGM (user Sample.of_gm) = true ∧
  selected Sample.window = Some "entry_1" ∧
  findIndex "entry_1" (getEntries Sample.of_gm) = Some (0, Sample.tavern) ∧
  Entry.comments Sample.tavern = Some [Sample.note] ∧
  Js.trim " Watered. " = "Watered." ∧
  Js.truthy "Watered." = true ∧
  ("entry_4" ∉ Comment.id <$> [Sample.note]) ∧
  getEntries (_submitComment (Some " Watered. ") "entry_4" 40%Z Sample.window
                Sample.of_gm)
    = <[0 := Entry.with_comments
               ([Sample.note] ++
                [Comment.mk "entry_4" (User.name (user Sample.of_gm))
                   (User.id (user Sample.of_gm)) "Watered." 40%Z])
               Sample.tavern]> (getEntries Sample.of_gm) ∧
  getEntries (_deleteComment "entry_4" Sample.window
                (_submitComment (Some " Watered. ") "entry_4" 40%Z Sample.window
                   Sample.of_gm))
    = getEntries Sample.of_gm.
Proof.
  assert ("entry_4" ∉ (Comment.id <$> [Sample.note])) as Hfresh.
  { intros Hin. apply list_elem_of_singleton in Hin. discriminate Hin. }
  do 6 (split; [reflexivity|]). split; [exact Hfresh|].
  apply (submit_then_delete_comment Sample.window Sample.of_gm "entry_1" 0
           Sample.tavern [Sample.note] " Watered. " "Watered." "entry_4" 40%Z);
    first [reflexivity | exact Hfresh].
Defined.

Lemma handleSave_blocked_witness :
  User.isGM (user Sample.of_bob_alone) = false ∧
  activeGM Sample.of_bob_alone = None ∧
  (_handleSave Sample.form 99%Z "entry_9" Sample.editor Sample.of_bob_alone).2 = false ∧
  (_handleSave Sample.form 99%Z "entry_9" Sample.editor Sample.of_bob_alone).1.1
    = Sample.editor ∧
  wikiEntries
    (_handleSave Sample.form 99%Z "entry_9" Sample.editor Sample.of_bob_alone).1.2
    = wikiEntries Sample.of_bob_alone ∧
  sent (_handleSave Sample.form 99%Z "entry_9" Sample.editor Sample.of_bob_alone).1.2
    = sent Sample.of_bob_alone.
Proof.
  do 2 (split; [reflexivity|]).
  apply (handleSave_blocked Sample.of_bob_alone Sample.editor Sample.form 99%Z
           "entry_9"); reflexivity.
Defined.

Lemma blank_title_is_refused_witness :
  Js.trim "   " = "" ∧
  _handleSave Sample.blank_form 99%Z "entry_9" Sample.editor Sample.of_gm
  = (Sample.editor,
     notify (warn "Please enter a title for the entry.") Sample.of_gm, false).
Proof.
  split; [reflexivity|].
  apply (blank_title_is_refused Sample.blank_form 99%Z "entry_9" Sample.editor
           Sample.of_gm). reflexivity.
Defined.

Lemma player_creates_entry_witness :
  User.isGM (user Sample.of_bob) = false ∧
  activeGM Sample.of_bob = Some Sample.gm ∧
  editor_entry_id (_onClickNew Sample.window) = None ∧
  Js.trim <$> fd_title Sample.form = Some "Old Road" ∧
  Js.truthy "Old Road" = true ∧
  _handleSave Sample.form 99%Z "entry_9" (_onClickNew Sample.window) Sample.of_bob
  = (_onClickNew Sample.window,
     emit (requestSave
             (getEntries Sample.of_bob ++
              [Entry.mk "entry_9" "Old Road" (fd_category Sample.form)
                 (form_content Sample.form) false false 99%Z 99%Z
                 (User.name (user Sample.of_bob)) (User.name (user Sample.of_bob))
                 None (Some [])]))
          Sample.of_bob,
     true).
Proof.
  do 5 (split; [reflexivity|]).
  apply (player_creates_entry Sample.of_bob (_onClickNew Sample.window) Sample.form
           "Old Road" 99%Z "entry_9" Sample.gm); reflexivity.
Defined.


Lemma save_of_deleted_entry_is_dropped_witness :
  User.isGM (user Sample.of_gm) = true ∧
  Js.trim <$> fd_title Sample.form = Some "Old Road" ∧
  Js.truthy "Old Road" = true ∧
  editor_entry_id Sample.stale_editor = Some "entry_0" ∧
  findIndex "entry_0" (getEntries Sample.of_gm) = None ∧
  (_handleSave Sample.form 99%Z "entry_9" Sample.stale_editor Sample.of_gm).2 = true ∧
  getEntries (_handleSave Sample.form 99%Z "entry_9" Sample.stale_editor Sample.of_gm).1.2
    = getEntries Sample.of_gm ∧
  notifications
    (_handleSave Sample.form 99%Z "entry_9" Sample.stale_editor Sample.of_gm).1.2
    = notifications Sample.of_gm.
Proof.
  do 5 (split; [reflexivity|]).
  apply (save_of_deleted_entry_is_dropped Sample.of_gm Sample.stale_editor Sample.form
           "Old Road" 99%Z "entry_9" "entry_0"); reflexivity.
Defined.

Lemma save_releases_lock_witness :
  is_Some (activeGM Sample.of_bob) ∧
  Js.trim <$> fd_title Sample.form = Some "Old Road" ∧
  Js.truthy "Old Road" = true ∧
  editor_entry_id Sample.editor = Some "entry_1" ∧
  _broadcastedStart Sample.editor = true ∧
  (_handleSave Sample.form 99%Z "entry_9" Sample.editor Sample.of_bob).2 = true ∧
  _broadcastedStart
    (_handleSave Sample.form 99%Z "entry_9" Sample.editor Sample.of_bob).1.1 = false ∧
  activeEditors
    (_handleSave Sample.form 99%Z "entry_9" Sample.editor Sample.of_bob).1.2
    !! "entry_1" = None ∧
  last (sent (_handleSave Sample.form 99%Z "entry_9" Sample.editor Sample.of_bob).1.2)
    = Some (editingStop "entry_1" (User.id (user Sample.of_bob))).
Proof.
  assert (is_Some (activeGM Sample.of_bob)) as Hgm.
  { exists Sample.gm. reflexivity. }
  split; [exact Hgm|]. do 4 (split; [reflexivity|]).
  apply (save_releases_lock Sample.of_bob Sample.editor Sample.form "Old Road" 99%Z
           "entry_9" "entry_1"); first [reflexivity | right; exact Hgm].
Defined.


Lemma move_up_then_down_witness :
  list_find (λ k, Category.id k = "npcs")
    (_syncFromDOM Sample.default_rows DEFAULT_CATEGORIES)
    = Some (2, Category.mk "npcs" "NPCs" "fa-person") ∧
  _syncFromDOM Sample.default_rows (move_up "npcs" Sample.default_rows DEFAULT_CATEGORIES)
    = move_up "npcs" Sample.default_rows DEFAULT_CATEGORIES ∧
  move_down "npcs" Sample.default_rows
    (move_up "npcs" Sample.default_rows DEFAULT_CATEGORIES)
  = Some (_syncFromDOM Sample.default_rows DEFAULT_CATEGORIES).
Proof.
  do 2 (split; [reflexivity|]).
  apply (move_up_then_down "npcs" Sample.default_rows Sample.default_rows
           DEFAULT_CATEGORIES 1 (Category.mk "npcs" "NPCs" "fa-person")); reflexivity.
Defined.

Lemma add_category_keeps_ids_distinct_witness :
  NoDup (Category.id <$> DEFAULT_CATEGORIES) ∧
  NoDup (Category.id <$>
           (add_category (Some " Sea Charts ") None "1700000000000" Sample.default_rows
              DEFAULT_CATEGORIES Sample.of_gm).1) ∧
  (Category.id <$>
     (add_category (Some " Sea Charts ") None "1700000000000" Sample.default_rows
        DEFAULT_CATEGORIES Sample.of_gm).1
   = Category.id <$> DEFAULT_CATEGORIES ∨
   ∃ id, Category.id <$>
           (add_category (Some " Sea Charts ") None "1700000000000" Sample.default_rows
              DEFAULT_CATEGORIES Sample.of_gm).1
         = (Category.id <$> DEFAULT_CATEGORIES) ++ [id]).
Proof.
  assert (NoDup (Category.id <$> DEFAULT_CATEGORIES)) as Hnodup.
  { apply (bool_decide_unpack _). vm_compute. exact I. }
  split; [exact Hnodup|].
  apply (add_category_keeps_ids_distinct (Some " Sea Charts ") None "1700000000000"
           Sample.default_rows DEFAULT_CATEGORIES Sample.of_gm). exact Hnodup.
Defined.

(** The id of the category added above. *)
Example slug_ex :
  slug "Sea Charts" = "sea-charts" ∧ slug "NPCs & Allies" = "npcs-allies" ∧
  slug "-a-" = "a" ∧ slug "!!!" = "".
Proof. repeat split. Qed.
